(** * The network store of the desktop wallet ([src/store/Network.ts])

    A shallow embedding of the Vuex module: the block range helper
    [getBlockRanges], the store's state and mutations, and the actions
    [initialize], [uninitialize], [SET_CURRENT_PEER], [ADD_KNOWN_PEER],
    [REMOVE_KNOWN_PEER], [SUBSCRIBE], [UNSUBSCRIBE] and [REST_FETCH_BLOCKS].

    Block heights are integers ([Z]), taken in the range where JavaScript's
    numbers are exact; a number that can also be [Infinity] is a [JS.num].
    Actions run in a monad that threads the store and a trace of the
    effects on the collaborators (transport, timers, console, event bus)
    and that can end in a thrown error.  An action runs alone: nothing else
    touches the store while it awaits. *)

From Stdlib Require Import ZArith Lia List Sorted.
From stdpp Require Import base option list strings gmap pretty.

Local Open Scope Z_scope.

(** ** The fragment of JavaScript the store uses *)

Module JS.

(** A number: an integer, or [Infinity] (what [Math.min()] returns on no
    argument). *)
Inductive num : Type :=
| Fin (z : Z)
| Infinity.

(** [a + b] *)
Definition add (a b : num) : num :=
  match a, b with
  | Fin x, Fin y => Fin (x + y)
  | _, _ => Infinity
  end.

(** [a > b] *)
Definition gt (a b : num) : bool :=
  match a, b with
  | Fin x, Fin y => y <? x
  | Fin _, Infinity => false
  | Infinity, Fin _ => true
  | Infinity, Infinity => false
  end.

(** [a < b] *)
Definition lt (a b : num) : bool := gt b a.

(** The smaller of two numbers, one step of [Math.min]. *)
Definition min2 (a b : num) : num :=
  match a, b with
  | Fin x, Fin y => Fin (Z.min x y)
  | Fin x, Infinity => Fin x
  | Infinity, b => b
  end.

(** [Math.min(...heights)]: [Infinity] when [heights] is empty. *)
Definition Math_min (heights : list Z) : num :=
  fold_right (fun h acc => min2 (Fin h) acc) Infinity heights.

(** [n.toString()] *)
Definition toString (n : num) : string :=
  match n with
  | Fin z => pretty z
  | Infinity => "Infinity"
  end.

(** What a [throw] carries: a [TypeError] of the language, or the store's
    own [Error(message)]. *)
Inductive error : Type :=
| TypeError (message : string)
| Error (message : string).

(** How a statement ends: normally with a value, or by a [throw]. *)
Inductive completion (A : Type) : Type :=
| Normal (a : A)
| Throw (e : error).
Arguments Normal {A} a.
Arguments Throw {A} e.

(** An array: a slot holds an element or is a hole ([delete a[i]] leaves
    one; reading it gives [undefined]). *)
Definition array (A : Type) : Type := list (option A).

(** [a.slice(from)] *)
Definition slice_from {A : Type} (from : nat) (a : list A) : list A :=
  drop from a.

(** [a.slice(from, to)] *)
Definition slice {A : Type} (from to : nat) (a : list A) : list A :=
  take (to - from) (drop from a).

(** The index of the first slot on which [p] holds, counted from [i]; [-1]
    when there is none. *)
Fixpoint findIndex_from {A : Type} (p : option A -> bool) (i : Z) (a : array A) : Z :=
  match a with
  | [] => -1
  | x :: a' => if p x then i else findIndex_from p (i + 1) a'
  end.

(** [delete a[idx]]: a hole at [idx] when it is an index of [a]; for any
    other key (such as [-1]) there is no such property and nothing changes. *)
Definition delete_index {A : Type} (idx : Z) (a : array A) : array A :=
  if (0 <=? idx) && (idx <? Z.of_nat (length a))
  then <[Z.to_nat idx := None]> a
  else a.

End JS.

(** ** The block range helper *)

(** [type BlockRangeType = {start: number}] *)
Record BlockRangeType : Type := { start : JS.num }.

Definition pageSize : JS.num := JS.Fin 100.

(** The heights [getBlockRanges] keeps for its recursive call:
    [heights.filter(height => height > min + pageSize)]. *)
Definition remaining (heights : list Z) : list Z :=
  List.filter (fun height => JS.gt (JS.Fin height) (JS.add (JS.Math_min heights) pageSize))
    heights.

(** [getBlockRanges], with the depth of the recursion bounded by [fuel]:
    [None] when the bound is reached before the function returns. *)
Fixpoint getBlockRanges_fuel (fuel : nat) (heights : list Z) : option (list BlockRangeType) :=
  match fuel with
  | O => None
  | S fuel' =>
      let min := JS.Math_min heights in
      let ranges := [ {| start := min |} ] in
      let heights' := remaining heights in
      if (0 <? length heights')%nat
      then rest ← getBlockRanges_fuel fuel' heights'; Some (ranges ++ rest)
      else Some ranges
  end.

(** [getBlockRanges(heights)]: one more level than [heights] has elements
    is always enough (lemma [getBlockRanges_fuel_enough]). *)
Definition getBlockRanges (heights : list Z) : list BlockRangeType :=
  default [] (getBlockRanges_fuel (S (length heights)) heights).

(** The [start]s of a plan are strictly increasing. *)
Definition increasing_starts (ranges : list BlockRangeType) : Prop :=
  StronglySorted (fun a b => JS.lt a b = true) (map start ranges).

(** Every [start] of a plan is one of the heights the plan was made for. *)
Definition starts_among (heights : list Z) (ranges : list BlockRangeType) : Prop :=
  Forall (fun range => exists h, start range = JS.Fin h /\ In h heights) ranges.

(** Two [start]s of a plan are more than a page apart. *)
Definition spaced_starts (ranges : list BlockRangeType) : Prop :=
  StronglySorted (fun a b => JS.lt (JS.add a pageSize) b = true) (map start ranges).

(** The height [h] is at most a page above the [start] of one of the
    ranges. *)
Definition covered (h : Z) (ranges : list BlockRangeType) : Prop :=
  exists range m, In range ranges /\ start range = JS.Fin m /\ m <= h <= m + 100.

(** ** The store's state *)

(** A block as the node returns it; the store reads [block.height.compact()]
    only. *)
Record BlockInfo : Type := { height : Z; hash : string }.

(** What [URLHelpers.formatUrl] returns; the store reads its [url] only. *)
Record Peer : Type := { url : string }.

(** The node's answer to [getNodeInfo], kept as it comes. *)
Definition NodeInfo : Type := string.

(** [type SubscriptionType = {listener: Listener, subscriptions: Subscription[]}],
    with listeners and channel subscriptions named by numbers. *)
Record SubscriptionType : Type := { listener : nat; channels : list nat }.

(** The numeric values of the SDK's [NetworkType]. *)
Module NetworkType.
Definition MAIN_NET : Z := 104.
Definition TEST_NET : Z := 152.
Definition MIJIN : Z := 96.
Definition MIJIN_TEST : Z := 144.
End NetworkType.

(** The module's [state] (lines 70-86), without [config] and
    [nemesisTransactions], which no action of this file touches.
    [currentPeerInfo] is [undefined] ([None]) until its mutation runs;
    [knownBlocks] is a plain object, its properties keyed by the decimal
    spelling of the heights; [knownPeers] is an array of urls. *)
Record State : Type := mkState {
  initialized : bool;
  wsEndpoint : string;
  defaultPeer : Peer;
  currentPeer : Peer;
  explorerUrl : string;
  networkType : Z;
  generationHash : string;
  isConnected : bool;
  knownPeers : JS.array string;
  currentHeight : Z;
  currentPeerInfo : option NodeInfo;
  knownBlocks : gmap string BlockInfo;
  subscriptions : list SubscriptionType
}.

(** ** Collaborators *)

(** [URLHelpers] (core/utils/URLHelpers) is not part of this file: its three
    functions are taken as given. *)
Record URLHelpers : Type := {
  formatUrl : string -> Peer;
  httpToWsUrl : string -> string;
  isValidURL : string -> bool
}.

(** A promise as the code that awaits it finds it. *)
Inductive promise (A : Type) : Type :=
| Fulfilled (a : A)
| Rejected (e : JS.error).
Arguments Fulfilled {A} a.
Arguments Rejected {A} e.

(** A call of a collaborator that answers with a promise: it returns one,
    or throws at once. *)
Inductive call (A : Type) : Type :=
| Returns (p : promise A)
| Throws (e : JS.error).
Arguments Returns {A} p.
Arguments Throws {A} e.

(** [true] unless the call returns a promise that is fulfilled. *)
Definition call_failed {A : Type} (c : call A) : bool :=
  match c with
  | Returns (Fulfilled _) => false
  | _ => true
  end.

(** [RESTService] and the repositories it creates, by the node's url:
    [create name url] is [RESTService.create(name, url)], the other fields
    are the requests ([...().toPromise()]); [getBlockchainHeight] answers
    with the height already [compact()]ed. *)
Record RESTService : Type := {
  create : string -> string -> JS.completion unit;
  getNetworkType : string -> call Z;
  getNodeInfo : string -> call NodeInfo;
  getBlockchainHeight : string -> call Z;
  getBlocksByHeightWithLimit : string -> string -> Z -> call (list BlockInfo)
}.

(** ** Effects *)

(** What an action does to the world outside the store, in the order it
    does it. *)
Inductive event : Type :=
| ConsoleLog (message : string)
| ConsoleError (message : string)
(* RESTService.create(name, nodeUrl) *)
| Create (name nodeUrl : string)
(* a request sent to the node through one of the repositories *)
| Request (nodeUrl method : string) (args : list string)
(* RESTService.subscribeBlocks(_, websocketUrl) *)
| SubscribeBlocks (websocketUrl : string)
(* $eventBus.$emit(name, arg) *)
| Emit (name arg : string)
(* sub.unsubscribe() and listener.close() *)
| Unsubscribe (channel : nat)
| Close (listener : nat)
(* setInterval(handler, ms), for a handler that dispatches
   REST_FETCH_BLOCKS with [payload] each time it fires *)
| SetInterval (payload : list BlockRangeType) (ms : Z).

Record World : Type := { store : State; trace : list event }.

(** An action or a mutation in progress: it reads and writes the world and
    ends normally or by a [throw]; what it did before the [throw] stays
    done. *)
Definition M (A : Type) : Type := World -> JS.completion A * World.

#[global] Instance completion_ret : MRet JS.completion := fun _ a => JS.Normal a.
#[global] Instance completion_bind : MBind JS.completion := fun _ _ f m =>
  match m with
  | JS.Normal a => f a
  | JS.Throw e => JS.Throw e
  end.

#[global] Instance M_ret : MRet M := fun _ a w => (JS.Normal a, w).
#[global] Instance M_bind : MBind M := fun _ _ f m w =>
  match m w with
  | (JS.Normal a, w') => f a w'
  | (JS.Throw e, w') => (JS.Throw e, w')
  end.

(** [throw e] *)
Definition throw {A : Type} (e : JS.error) : M A := fun w => (JS.Throw e, w).

(** [try { body } catch (e) { handler }] *)
Definition try_catch {A : Type} (body : M A) (handler : JS.error -> M A) : M A :=
  fun w =>
    match body w with
    | (JS.Normal a, w') => (JS.Normal a, w')
    | (JS.Throw e, w') => handler e w'
    end.

(** A pure computation that may throw, run as a step. *)
Definition lift {A : Type} (c : JS.completion A) : M A := fun w => (c, w).

(** One effect on the outside world. *)
Definition perform (e : event) : M unit :=
  fun w => (JS.Normal tt, {| store := store w; trace := trace w ++ [e] |}).

(** [getters.name] *)
Definition getter {A : Type} (read : State -> A) : M A :=
  fun w => (JS.Normal (read (store w)), w).

(** [commit(name, payload)] for a mutation that cannot throw. *)
Definition commit (mutation : State -> State) : M unit :=
  fun w => (JS.Normal tt, {| store := mutation (store w); trace := trace w |}).

(** [commit(name, payload)] for a mutation that can throw: the state is
    written only when it ends normally. *)
Definition commit_partial (mutation : State -> JS.completion State) : M unit :=
  fun w =>
    match mutation (store w) with
    | JS.Normal s => (JS.Normal tt, {| store := s; trace := trace w |})
    | JS.Throw e => (JS.Throw e, w)
    end.

(** [await c]: the value of the promise, or the rejection (or what the
    call threw) as a [throw]. *)
Definition await {A : Type} (c : call A) : M A :=
  match c with
  | Returns (Fulfilled a) => mret a
  | Returns (Rejected e) => throw e
  | Throws e => throw e
  end.

(** A call of an [async] function whose promise nobody awaits: it runs to
    its first [await]; a [throw] on the way only rejects the promise. *)
Definition unawaited {A : Type} (until_first_await : M A) : M unit :=
  fun w => (JS.Normal tt, snd (until_first_await w)).

(** [a.map(f)] for an [f] run for its effects, in order. *)
Fixpoint for_each {A : Type} (f : A -> M unit) (a : list A) : M unit :=
  match a with
  | [] => mret tt
  | x :: a' => f x ;; for_each f a'
  end.

(** [a.filter(p)] for a callback that may throw. *)
Fixpoint filter_cb {A : Type} (p : A -> JS.completion bool) (a : list A)
  : JS.completion (list A) :=
  match a with
  | [] => mret []
  | x :: a' =>
      keep ← p x;
      rest ← filter_cb p a';
      mret (if keep : bool then x :: rest else rest)
  end.

(** [a.map(f)] for a callback that may throw. *)
Fixpoint map_cb {A B : Type} (f : A -> JS.completion B) (a : list A)
  : JS.completion (list B) :=
  match a with
  | [] => mret []
  | x :: a' =>
      y ← f x;
      rest ← map_cb f a';
      mret (y :: rest)
  end.

(** ** Mutations *)

(** [Vue.set(state, field, value)], one function per field that a mutation
    writes. *)
Definition set_initialized (v : bool) (s : State) : State :=
  mkState v (wsEndpoint s) (defaultPeer s) (currentPeer s) (explorerUrl s) (networkType s)
    (generationHash s) (isConnected s) (knownPeers s) (currentHeight s) (currentPeerInfo s)
    (knownBlocks s) (subscriptions s).
Definition set_wsEndpoint (v : string) (s : State) : State :=
  mkState (initialized s) v (defaultPeer s) (currentPeer s) (explorerUrl s) (networkType s)
    (generationHash s) (isConnected s) (knownPeers s) (currentHeight s) (currentPeerInfo s)
    (knownBlocks s) (subscriptions s).
Definition set_currentPeer (v : Peer) (s : State) : State :=
  mkState (initialized s) (wsEndpoint s) (defaultPeer s) v (explorerUrl s) (networkType s)
    (generationHash s) (isConnected s) (knownPeers s) (currentHeight s) (currentPeerInfo s)
    (knownBlocks s) (subscriptions s).
Definition set_networkType (v : Z) (s : State) : State :=
  mkState (initialized s) (wsEndpoint s) (defaultPeer s) (currentPeer s) (explorerUrl s) v
    (generationHash s) (isConnected s) (knownPeers s) (currentHeight s) (currentPeerInfo s)
    (knownBlocks s) (subscriptions s).
Definition set_generationHash (v : string) (s : State) : State :=
  mkState (initialized s) (wsEndpoint s) (defaultPeer s) (currentPeer s) (explorerUrl s)
    (networkType s) v (isConnected s) (knownPeers s) (currentHeight s) (currentPeerInfo s)
    (knownBlocks s) (subscriptions s).
Definition set_isConnected (v : bool) (s : State) : State :=
  mkState (initialized s) (wsEndpoint s) (defaultPeer s) (currentPeer s) (explorerUrl s)
    (networkType s) (generationHash s) v (knownPeers s) (currentHeight s) (currentPeerInfo s)
    (knownBlocks s) (subscriptions s).
Definition set_knownPeers (v : JS.array string) (s : State) : State :=
  mkState (initialized s) (wsEndpoint s) (defaultPeer s) (currentPeer s) (explorerUrl s)
    (networkType s) (generationHash s) (isConnected s) v (currentHeight s) (currentPeerInfo s)
    (knownBlocks s) (subscriptions s).
Definition set_currentHeight (v : Z) (s : State) : State :=
  mkState (initialized s) (wsEndpoint s) (defaultPeer s) (currentPeer s) (explorerUrl s)
    (networkType s) (generationHash s) (isConnected s) (knownPeers s) v (currentPeerInfo s)
    (knownBlocks s) (subscriptions s).
Definition set_currentPeerInfo (v : option NodeInfo) (s : State) : State :=
  mkState (initialized s) (wsEndpoint s) (defaultPeer s) (currentPeer s) (explorerUrl s)
    (networkType s) (generationHash s) (isConnected s) (knownPeers s) (currentHeight s) v
    (knownBlocks s) (subscriptions s).
Definition set_knownBlocks (v : gmap string BlockInfo) (s : State) : State :=
  mkState (initialized s) (wsEndpoint s) (defaultPeer s) (currentPeer s) (explorerUrl s)
    (networkType s) (generationHash s) (isConnected s) (knownPeers s) (currentHeight s)
    (currentPeerInfo s) v (subscriptions s).
Definition set_subscriptions (v : list SubscriptionType) (s : State) : State :=
  mkState (initialized s) (wsEndpoint s) (defaultPeer s) (currentPeer s) (explorerUrl s)
    (networkType s) (generationHash s) (isConnected s) (knownPeers s) (currentHeight s)
    (currentPeerInfo s) (knownBlocks s) v.

(** What an action hands to a mutation that searches an array: the url the
    callers of [REMOVE_KNOWN_PEER] pass, a function, or nothing. *)
Inductive payload : Type :=
| Str (s : string)
| Fn (f : option string -> bool)
| Undefined.

(** [String(p)], as it stands in the message of a [TypeError]. *)
Definition payload_text (p : payload) : string :=
  match p with
  | Str s => s
  | Fn _ => "function"
  | Undefined => "undefined"
  end.

(** [a.findIndex(predicate)]: the language throws a [TypeError] when
    [predicate] is not callable, whatever [a] holds; otherwise the index of
    the first slot the predicate accepts, or [-1]. *)
Definition findIndex (a : JS.array string) (predicate : payload) : JS.completion Z :=
  match predicate with
  | Fn f => JS.Normal (JS.findIndex_from f 0 a)
  | _ => JS.Throw (JS.TypeError (payload_text predicate +:+ " is not a function"))
  end.

Module mutations.
Section Mutations.
Variable U : URLHelpers.

Definition setInitialized (initialized : bool) (state : State) : State :=
  set_initialized initialized state.

Definition setConnected (connected : bool) (state : State) : State :=
  set_isConnected connected state.

Definition currentHeight (height : Z) (state : State) : State :=
  set_currentHeight height state.

Definition currentPeerInfo (info : NodeInfo) (state : State) : State :=
  set_currentPeerInfo (Some info) state.

(** Lines 106-113; [None] is the payload [undefined]. *)
Definition currentPeer (payload : option string) (state : State) : State :=
  match payload with
  | Some payload =>
      let currentPeer := formatUrl U payload in
      let wsEndpoint := httpToWsUrl U (url currentPeer) in
      set_wsEndpoint wsEndpoint (set_currentPeer currentPeer state)
  | None => state
  end.

(** Lines 114-118: [knownPeers.push(peerUrl)]. *)
Definition addPeer (peerUrl : string) (state : State) : State :=
  set_knownPeers (knownPeers state ++ [Some peerUrl]) state.

(** Lines 119-128.  [findIndex] answers with a number, so the test
    [idx === undefined] never holds and the mutation goes on to
    [delete knownPeers[idx]]. *)
Definition removePeer (peerUrl : payload) (state : State) : JS.completion State :=
  idx ← findIndex (knownPeers state) peerUrl;
  mret (set_knownPeers (JS.delete_index idx (knownPeers state)) state).

(** Lines 133-137: [knownBlocks[block.height.compact()] = block]. *)
Definition addBlock (block : BlockInfo) (state : State) : State :=
  set_knownBlocks (<[pretty (height block) := block]> (knownBlocks state)) state.

(** Lines 138-151. *)
Definition networkType (type : Z) (state : State) : State :=
  if (type =? NetworkType.MIJIN_TEST) || (type =? NetworkType.MIJIN)
     || (type =? NetworkType.TEST_NET) || (type =? NetworkType.MAIN_NET)
  then set_networkType type state
  else set_networkType NetworkType.MIJIN_TEST state.

Definition setSubscriptions (data : list SubscriptionType) (state : State) : State :=
  set_subscriptions data state.

Definition generationHash (hash : string) (state : State) : State :=
  set_generationHash hash state.

End Mutations.
End mutations.

(** ** Actions *)

(** ['' + e], as the console shows an error. *)
Definition error_text (e : JS.error) : string :=
  match e with
  | JS.TypeError message => "TypeError: " +:+ message
  | JS.Error message => "Error: " +:+ message
  end.

(** A request to a collaborator: it is sent ([sent] goes to the trace) and
    the promise comes back, unless the call throws at once. *)
Definition request {A : Type} (sent : event) (c : call A) : M (promise A) :=
  perform sent ;;
  match c with
  | Returns p => mret p
  | Throws e => throw e
  end.

(** [await collaborator.method(...).toPromise()] *)
Definition await_request {A : Type} (sent : event) (c : call A) : M A :=
  p ← request sent c;
  await (Returns p).

(** [RESTService.create(name, nodeUrl)] *)
Definition RESTService_create (T : RESTService) (name nodeUrl : string) : M unit :=
  perform (Create name nodeUrl) ;; lift (create T name nodeUrl).

(** Modelled from the spec: [AwaitLock] (store/AwaitLock) is not among the
    sources.  The spec's lock "executes operation exclusively" and "only
    serializes, it does not catch": where one action runs at a time, that
    is to run the callback. *)
Definition Lock_initialize (callback : M unit) : M unit := callback.

(** Modelled from the spec: the same lock, for the flow "uninitialize". *)
Definition Lock_uninitialize (callback : M unit) : M unit := callback.

(** [knownBlocks.find(height)].  [knownBlocks] is the plain object of line
    83, and [addBlock] is all that writes to it: its property [find] is not
    there ([undefined]) or is a block, and the call of either throws. *)
Definition knownBlocks_find (knownBlocks : gmap string BlockInfo) (height : Z)
  : JS.completion (option BlockInfo) :=
  match knownBlocks !! "find" with
  | None => JS.Throw (JS.TypeError "knownBlocks.find is not a function")
  | Some _block => JS.Throw (JS.TypeError "knownBlocks.find is not a function")
  end.

(** What [REST_FETCH_BLOCKS] returns: [blocks], or [false]. *)
Inductive fetched : Type :=
| ReturnBlocks (blocks : list BlockInfo)
| ReturnFalse.

(** The value of the variable [blocks] of a run of [REST_FETCH_BLOCKS] once
    the request of one range has settled, the run itself long over (line
    311): [blocks.concat(page)], in a new array. *)
Definition page_settled (p : promise (list BlockInfo)) (blocks : list BlockInfo)
  : list BlockInfo :=
  match p with
  | Fulfilled page => blocks ++ page
  | Rejected _ => blocks
  end.

Module actions.
Section Actions.
Variable U : URLHelpers.
Variable T : RESTService.

(** Lines 251-261, as far as a caller that does not await it sees it run:
    to the [await] of [RESTService.subscribeBlocks]. *)
Definition SUBSCRIBE : M unit :=
  websocketUrl ← getter wsEndpoint;
  perform (SubscribeBlocks websocketUrl).

Definition RESET_SUBSCRIPTIONS : M unit :=
  commit (mutations.setSubscriptions []).

(** Lines 264-276. *)
Definition UNSUBSCRIBE : M unit :=
  subscriptions ← getter subscriptions;
  for_each (fun subscription =>
              for_each (fun sub => perform (Unsubscribe sub)) (channels subscription) ;;
              perform (Close (listener subscription)))
           subscriptions ;;
  RESET_SUBSCRIPTIONS.

(** The callback of [initialize], lines 166-201. *)
Definition initialize_callback : M unit :=
  nodeUrl ← getter (fun state => url (currentPeer state));
  perform (ConsoleLog ("network/initialize: nodeUrl: " +:+ nodeUrl)) ;;
  try_catch
    (RESTService_create T "NetworkHttp" nodeUrl ;;
     RESTService_create T "ChainHttp" nodeUrl ;;
     RESTService_create T "NodeHttp" nodeUrl ;;
     networkType ← await_request (Request nodeUrl "getNetworkType" []) (getNetworkType T nodeUrl);
     commit (mutations.currentPeer U (Some nodeUrl)) ;;
     commit (mutations.setConnected true) ;;
     perform (Emit "newConnection" nodeUrl) ;;
     peerInfo ← await_request (Request nodeUrl "getNodeInfo" []) (getNodeInfo T nodeUrl);
     currentHeight ← await_request (Request nodeUrl "getBlockchainHeight" [])
                       (getBlockchainHeight T nodeUrl);
     perform (ConsoleLog ("network/initialize: peerInfo: " +:+ peerInfo)) ;;
     perform (ConsoleLog ("network/initialize: currentHeight: " +:+ pretty currentHeight)) ;;
     commit (mutations.networkType networkType) ;;
     commit (mutations.currentHeight currentHeight) ;;
     commit (mutations.currentPeerInfo peerInfo) ;;
     commit (mutations.setInitialized true) ;;
     unawaited SUBSCRIBE)
    (fun e => perform (ConsoleLog ("Error in Store network/initialize: " +:+ error_text e))).

(** Lines 165-205. *)
Definition initialize : M unit := Lock_initialize initialize_callback.

(** Lines 206-212. *)
Definition uninitialize : M unit :=
  Lock_uninitialize (UNSUBSCRIBE ;; commit (mutations.setInitialized false)).

(** Lines 214-227. *)
Definition SET_CURRENT_PEER (currentPeerUrl : string) : M unit :=
  if negb (isValidURL U currentPeerUrl)
  then throw (JS.Error ("Cannot change node. URL is not valid: " +:+ currentPeerUrl))
  else
    commit (mutations.currentPeer U (Some currentPeerUrl)) ;;
    commit (mutations.setConnected false) ;;
    commit (mutations.setInitialized false) ;;
    uninitialize ;;
    initialize.

(** Lines 228-234. *)
Definition ADD_KNOWN_PEER (peerUrl : string) : M unit :=
  if negb (isValidURL U peerUrl)
  then throw (JS.Error ("Cannot add node. URL is not valid: " +:+ peerUrl))
  else commit (mutations.addPeer peerUrl).

(** Lines 235-237. *)
Definition REMOVE_KNOWN_PEER (peerUrl : payload) : M unit :=
  commit_partial (mutations.removePeer peerUrl).

Definition ADD_BLOCK (block : BlockInfo) : M unit :=
  commit (mutations.addBlock block).

Definition SET_CURRENT_HEIGHT (height : Z) : M unit :=
  commit (mutations.currentHeight height).

(** The callback of line 309 as [ranges.map] runs it: to its [await], that
    is, the request for one page is sent; that the call throws only rejects
    the callback's own promise.  What follows the [await] is
    [page_settled]. *)
Definition fetch_page (currentPeer : string) (range : BlockRangeType) : M unit :=
  unawaited
    (request (Request currentPeer "getBlocksByHeightWithLimit"
                [JS.toString (start range); "100"])
       (getBlocksByHeightWithLimit T currentPeer (JS.toString (start range)) 100)).

(** Lines 292-321 of [REST_FETCH_BLOCKS]: from the unknown [heights] and
    the [blocks] found in the store to the returned value.  The handler of
    [setInterval] reads the variable [ranges] when it fires, after line 295
    has assigned to it. *)
Definition fetch_ranges (heights : list Z) (blocks : list BlockInfo) : M fetched :=
  let ranges := getBlockRanges heights in
  ranges ←
    (if (3 <? length ranges)%nat
     then
       let ranges := JS.slice 0 3 ranges in
       perform (SetInterval (JS.slice_from 3 ranges) 3000) ;;
       mret ranges
     else mret ranges);
  try_catch
    (currentPeer ← getter (fun state => url (currentPeer state));
     RESTService_create T "BlockHttp" currentPeer ;;
     for_each (fetch_page currentPeer) ranges ;;
     for_each (fun block => commit (mutations.addBlock block)) blocks ;;
     mret (ReturnBlocks blocks))
    (fun e =>
       perform (ConsoleError
                  ("An error happened while trying to fetch account information: <pre>"
                   +:+ error_text e +:+ "</pre>")) ;;
       mret ReturnFalse).

(** Lines 280-322. *)
Definition REST_FETCH_BLOCKS (blockHeights : list Z) : M fetched :=
  knownBlocks ← getter knownBlocks;
  heights ← lift (filter_cb (fun height =>
                               found ← knownBlocks_find knownBlocks height;
                               mret (bool_decide (found = None)))
                            blockHeights);
  known ← lift (filter_cb (fun height =>
                             found ← knownBlocks_find knownBlocks height;
                             mret (negb (bool_decide (found = None))))
                          blockHeights);
  blocks ← lift (map_cb (fun known => knownBlocks_find knownBlocks known) known);
  (* the heights kept by the second filter are those found, none [undefined] *)
  fetch_ranges heights (omap id blocks).

End Actions.
End actions.

(** The store once [initialize] has read the network type (lines 179-180):
    the current peer committed again from its own url, and connected. *)
Definition connected (U : URLHelpers) (state : State) : State :=
  mutations.setConnected true
    (mutations.currentPeer U (Some (url (currentPeer state))) state).

(** ** A store and collaborators to run the actions on *)

Module sample.

Definition helpers : URLHelpers :=
  {| formatUrl := fun s => {| url := s |};
     httpToWsUrl := fun s => "ws" +:+ String.substring 4 (String.length s - 4)%nat s;
     isValidURL := fun s => String.prefix "http://" s || String.prefix "https://" s |}.

Definition node : string := "http://localhost:3000".

Definition state : State :=
  {| initialized := false;
     wsEndpoint := "";
     defaultPeer := {| url := node |};
     currentPeer := {| url := node |};
     explorerUrl := "http://explorer.example";
     networkType := NetworkType.MIJIN_TEST;
     generationHash := "";
     isConnected := false;
     knownPeers := [Some node];
     currentHeight := 0;
     currentPeerInfo := None;
     knownBlocks := ∅;
     subscriptions := [] |}.

Definition world : World := {| store := state; trace := [] |}.

Definition block (h : Z) : BlockInfo := {| height := h; hash := "hash-" +:+ pretty h |}.

(** The same store, with the block of height 5 known. *)
Definition world_with_block : World :=
  {| store := mutations.addBlock (block 5) state; trace := [] |}.

(** A node that answers every request. *)
Definition node_up : RESTService :=
  {| create := fun _ _ => JS.Normal tt;
     getNetworkType := fun _ => Returns (Fulfilled NetworkType.TEST_NET);
     getNodeInfo := fun _ => Returns (Fulfilled "node-info");
     getBlockchainHeight := fun _ => Returns (Fulfilled 1234);
     getBlocksByHeightWithLimit := fun _ _ _ => Returns (Fulfilled [block 1; block 2]) |}.

(** A node that tells its network type and then stops answering. *)
Definition node_info_down : RESTService :=
  {| create := fun _ _ => JS.Normal tt;
     getNetworkType := fun _ => Returns (Fulfilled NetworkType.TEST_NET);
     getNodeInfo := fun _ => Returns (Rejected (JS.Error "timeout"));
     getBlockchainHeight := fun _ => Returns (Fulfilled 1234);
     getBlocksByHeightWithLimit := fun _ _ _ => Returns (Rejected (JS.Error "timeout")) |}.

(** A node whose every request throws. *)
Definition node_down : RESTService :=
  {| create := fun _ _ => JS.Normal tt;
     getNetworkType := fun _ => Throws (JS.Error "unreachable");
     getNodeInfo := fun _ => Throws (JS.Error "unreachable");
     getBlockchainHeight := fun _ => Throws (JS.Error "unreachable");
     getBlocksByHeightWithLimit := fun _ _ _ => Throws (JS.Error "unreachable") |}.

End sample.

(** The requests [ranges.map] of line 309 sends, one per range. *)
Definition page_requests (currentPeer : string) (ranges : list BlockRangeType) : list event :=
  map (fun range => Request currentPeer "getBlocksByHeightWithLimit"
                      [JS.toString (start range); "100"])
      ranges.

(** The store after [blocks.map(block => commit('addBlock', block))]. *)
Definition blocks_added (blocks : list BlockInfo) (state : State) : State :=
  fold_left (fun state block => mutations.addBlock block state) blocks state.

(** What [UNSUBSCRIBE] does to the subscriptions it finds: every channel
    unsubscribed, then the listener closed, one subscription after the
    other. *)
Definition teardown (subscriptions : list SubscriptionType) : list event :=
  flat_map (fun subscription =>
              map Unsubscribe (channels subscription) ++ [Close (listener subscription)])
           subscriptions.

(** Two lists hold the same heights, whatever the order and the
    repetitions. *)
Definition same_heights (heights heights' : list Z) : Prop :=
  forall h, In h heights <-> In h heights'.

(** The pages that start at [pages] reach every height: each [h] is at
    most a page above one of the starts, which is how far a range of
    [getBlockRanges] reaches ([covered]). *)
Definition pages_reach (pages heights : list Z) : Prop :=
  forall h, In h heights -> exists s, In s pages /\ s <= h <= s + 100.

(** One of the four values of [NetworkType] that the mutation
    [networkType] lets through. *)
Definition recognised (type : Z) : bool :=
  (type =? NetworkType.MIJIN_TEST) || (type =? NetworkType.MIJIN)
  || (type =? NetworkType.TEST_NET) || (type =? NetworkType.MAIN_NET).


(** ** The known peers as the one array they are

    [state.knownPeers] is initialised with the array of the configuration
    itself (line 81), [addPeer] and [removePeer] change the array in place
    (lines 116 and 126), and [resetPeers] stores the configuration's array
    in the state again (lines 130-131).  Here the arrays live in a memory
    and the state and the configuration hold addresses. *)

Module shared.

Record Memory : Type := {
  arrays : gmap nat (JS.array string);
  (* networkConfig.networks['testnet-publicTest'].nodes *)
  config_nodes : nat;
  (* state.knownPeers *)
  state_knownPeers : nat
}.

(** The array at an address. *)
Definition array_at (address : nat) (m : Memory) : JS.array string :=
  default [] (arrays m !! address).

(** [getters.knownPeers], read through. *)
Definition knownPeers (m : Memory) : JS.array string := array_at (state_knownPeers m) m.

(** The nodes of the configuration, read through. *)
Definition configured (m : Memory) : JS.array string := array_at (config_nodes m) m.

(** An array changed in place. *)
Definition write (address : nat) (a : JS.array string) (m : Memory) : Memory :=
  {| arrays := <[address := a]> (arrays m);
     config_nodes := config_nodes m;
     state_knownPeers := state_knownPeers m |}.

(** [Vue.set(state, 'knownPeers', address)] *)
Definition set_knownPeers (address : nat) (m : Memory) : Memory :=
  {| arrays := arrays m; config_nodes := config_nodes m; state_knownPeers := address |}.

(** The module as loaded: one array, the configuration's, in the state
    too. *)
Definition initial (nodes : JS.array string) : Memory :=
  {| arrays := {[ 0%nat := nodes ]}; config_nodes := 0; state_knownPeers := 0 |}.

(** Lines 114-118. *)
Definition addPeer (peerUrl : string) (m : Memory) : Memory :=
  let knownPeers := state_knownPeers m in
  let m := write knownPeers (array_at knownPeers m ++ [Some peerUrl]) m in
  set_knownPeers knownPeers m.

(** Lines 119-128. *)
Definition removePeer (peerUrl : payload) (m : Memory) : JS.completion Memory :=
  idx ← findIndex (array_at (state_knownPeers m) m) peerUrl;
  let knownPeers := state_knownPeers m in
  let m := write knownPeers (JS.delete_index idx (array_at knownPeers m)) m in
  mret (set_knownPeers knownPeers m).

(** Lines 129-132. *)
Definition resetPeers (m : Memory) : Memory :=
  let knownPeers := config_nodes m in
  set_knownPeers knownPeers m.

(** The three actions on the known peers (lines 228-240). *)
Inductive action : Type :=
| ADD_KNOWN_PEER (peerUrl : string)
| REMOVE_KNOWN_PEER (peerUrl : payload)
| RESET_PEERS.

(** One action dispatched; an action that throws has committed nothing. *)
Definition dispatch (U : URLHelpers) (a : action) (m : Memory) : Memory :=
  match a with
  | ADD_KNOWN_PEER peerUrl => if negb (isValidURL U peerUrl) then m else addPeer peerUrl m
  | REMOVE_KNOWN_PEER peerUrl =>
      match removePeer peerUrl m with
      | JS.Normal m' => m'
      | JS.Throw _ => m
      end
  | RESET_PEERS => resetPeers m
  end.

(** Actions dispatched one after the other. *)
Definition dispatch_all (U : URLHelpers) (actions : list action) (m : Memory) : Memory :=
  fold_left (fun m a => dispatch U a m) actions m.

End shared.

(** ** Runs of [initialize] and sequences of actions *)

(** [true] when the statement ended normally. *)
Definition completes {A : Type} (c : JS.completion A) : bool :=
  match c with
  | JS.Normal _ => true
  | JS.Throw _ => false
  end.

(** The node answers all that [initialize] asks of it: the three
    repositories are created and the three requests fulfilled. *)
Definition node_answers (T : RESTService) (nodeUrl : string) : bool :=
  completes (create T "NetworkHttp" nodeUrl)
  && completes (create T "ChainHttp" nodeUrl)
  && completes (create T "NodeHttp" nodeUrl)
  && negb (call_failed (getNetworkType T nodeUrl))
  && negb (call_failed (getNodeInfo T nodeUrl))
  && negb (call_failed (getBlockchainHeight T nodeUrl)).

(** The store after the commits of lines 179-193. *)
Definition initialized_state (U : URLHelpers) (type : Z) (info : NodeInfo) (h : Z)
    (state : State) : State :=
  mutations.setInitialized true
    (mutations.currentPeerInfo info
       (mutations.currentHeight h
          (mutations.networkType type (connected U state)))).

(** The store after the commits of lines 220-222. *)
Definition switched (U : URLHelpers) (currentPeerUrl : string) (state : State) : State :=
  mutations.setInitialized false
    (mutations.setConnected false
       (mutations.currentPeer U (Some currentPeerUrl) state)).

(** The store after [uninitialize]. *)
Definition uninitialized (state : State) : State :=
  mutations.setInitialized false (mutations.setSubscriptions [] state).

Definition is_subscription (e : event) : bool :=
  match e with
  | SubscribeBlocks _ => true
  | _ => false
  end.

(** No subscription is opened among the events. *)
Definition no_subscription (events : list event) : bool :=
  forallb (fun e => negb (is_subscription e)) events.

(** The websocket endpoint is the one of the current peer. *)
Definition ws_derived (U : URLHelpers) (state : State) : Prop :=
  wsEndpoint state = httpToWsUrl U (url (currentPeer state)).

Module session.

(** The actions of the module a caller can dispatch, but for [SUBSCRIBE]
    and [RESET_PEERS]. *)
Inductive action : Type :=
| initialize
| uninitialize
| SET_CURRENT_PEER (currentPeerUrl : string)
| ADD_KNOWN_PEER (peerUrl : string)
| REMOVE_KNOWN_PEER (peerUrl : payload)
| RESET_SUBSCRIPTIONS
| ADD_BLOCK (block : BlockInfo)
| UNSUBSCRIBE
| SET_CURRENT_HEIGHT (height : Z)
| REST_FETCH_BLOCKS (blockHeights : list Z).

(** The world after one action, dispatched on a node that answers as [T]
    does; what the action returns or throws goes to its caller. *)
Definition dispatch (U : URLHelpers) (T : RESTService) (a : action) (w : World) : World :=
  match a with
  | initialize => snd (actions.initialize U T w)
  | uninitialize => snd (actions.uninitialize w)
  | SET_CURRENT_PEER currentPeerUrl => snd (actions.SET_CURRENT_PEER U T currentPeerUrl w)
  | ADD_KNOWN_PEER peerUrl => snd (actions.ADD_KNOWN_PEER U peerUrl w)
  | REMOVE_KNOWN_PEER peerUrl => snd (actions.REMOVE_KNOWN_PEER peerUrl w)
  | RESET_SUBSCRIPTIONS => snd (actions.RESET_SUBSCRIPTIONS w)
  | ADD_BLOCK block => snd (actions.ADD_BLOCK block w)
  | UNSUBSCRIBE => snd (actions.UNSUBSCRIBE w)
  | SET_CURRENT_HEIGHT height => snd (actions.SET_CURRENT_HEIGHT height w)
  | REST_FETCH_BLOCKS blockHeights => snd (actions.REST_FETCH_BLOCKS T blockHeights w)
  end.

(** Actions dispatched one after the other, each on the node as it answers
    at that time. *)
Definition run (U : URLHelpers) (history : list (RESTService * action)) (w : World) : World :=
  fold_left (fun w step => dispatch U (fst step) (snd step) w) history w.

End session.

(** A property of the store that every commit of the actions keeps, the
    commits taken as the actions group them. *)
Record stable (U : URLHelpers) (P : State -> Prop) : Prop := {
  stable_connected : forall state, P state -> P (connected U state);
  stable_initialized :
    forall state type info h, P state -> P (initialized_state U type info h state);
  stable_uninitialized : forall state, P state -> P (uninitialized state);
  stable_switched : forall state currentPeerUrl, P state -> P (switched U currentPeerUrl state);
  stable_addPeer : forall state peerUrl, P state -> P (mutations.addPeer peerUrl state);
  stable_removePeer :
    forall state peerUrl state',
      P state -> mutations.removePeer peerUrl state = JS.Normal state' -> P state';
  stable_addBlock : forall state block, P state -> P (mutations.addBlock block state);
  stable_currentHeight : forall state h, P state -> P (mutations.currentHeight h state);
  stable_setSubscriptions : forall state, P state -> P (mutations.setSubscriptions [] state)
}.

(** * Properties *)

(** ** The block range helper *)

Section Planner.
Implicit Types (heights : list Z) (h m : Z).

Lemma Math_min_cons h heights :
  JS.Math_min (h :: heights) = JS.min2 (JS.Fin h) (JS.Math_min heights).
Proof. reflexivity. Qed.

(** On a list that is not empty, [Math.min] is an element of the list and
    a lower bound of it. *)
Lemma Math_min_least heights :
  heights <> [] ->
  exists m, JS.Math_min heights = JS.Fin m /\ In m heights /\ forall h, In h heights -> m <= h.
Proof.
  induction heights as [|h0 t IH]; [congruence|]. intros _.
  rewrite Math_min_cons. destruct t as [|h1 t'].
  - exists h0. cbn. repeat split; [tauto|]. intros h [->|[]]. lia.
  - destruct IH as (m & Hm & Hin & Hle); [congruence|]. rewrite Hm. cbn [JS.min2].
    exists (Z.min h0 m). split; [reflexivity|]. split.
    + destruct (Z.min_spec h0 m) as [[_ ->]|[_ ->]]; [left; reflexivity|right; exact Hin].
    + intros h [->|Hh]; [lia|]. specialize (Hle h Hh). lia.
Qed.

(** [Math.min] is finite exactly on the lists that are not empty. *)
Lemma Math_min_Fin heights m : JS.Math_min heights = JS.Fin m -> heights <> [].
Proof. intros H ->. discriminate H. Qed.

Lemma remaining_In heights m h :
  JS.Math_min heights = JS.Fin m ->
  In h (remaining heights) <-> In h heights /\ m + 100 < h.
Proof.
  intros Hm. unfold remaining. rewrite filter_In, Hm. cbn.
  rewrite Z.ltb_lt. reflexivity.
Qed.

Lemma filter_length_lt {A : Type} (f : A -> bool) (l : list A) (x : A) :
  In x l -> f x = false -> (length (List.filter f l) < length l)%nat.
Proof.
  induction l as [|a l IH]; [intros []|].
  intros [->|Hin] Hf; cbn.
  - rewrite Hf. pose proof (List.filter_length_le f l). lia.
  - specialize (IH Hin Hf). destruct (f a); cbn; lia.
Qed.

(** The filter always drops the minimum, so the recursive call is on a
    shorter list. *)
Lemma remaining_shorter heights :
  heights <> [] -> (length (remaining heights) < length heights)%nat.
Proof.
  intros Hne. destruct (Math_min_least heights Hne) as (m & Hm & Hin & _).
  unfold remaining. apply (filter_length_lt _ _ m Hin).
  rewrite Hm. cbn. apply Z.ltb_ge. lia.
Qed.

(** Any two bounds above the length of the list give the same result, and
    it is a result. *)
Lemma getBlockRanges_fuel_stable fuel1 :
  forall fuel2 heights,
    (length heights < fuel1)%nat -> (length heights < fuel2)%nat ->
    exists ranges,
      getBlockRanges_fuel fuel1 heights = Some ranges /\
      getBlockRanges_fuel fuel2 heights = Some ranges.
Proof.
  induction fuel1 as [|fuel1 IH]; intros fuel2 heights H1 H2; [lia|].
  destruct fuel2 as [|fuel2]; [lia|]. cbn [getBlockRanges_fuel].
  destruct (0 <? length (remaining heights))%nat eqn:Hrest; [|eauto].
  apply Nat.ltb_lt in Hrest.
  assert (heights <> []) as Hne by (intros ->; cbn in Hrest; lia).
  pose proof (remaining_shorter heights Hne) as Hlt.
  destruct (IH fuel2 (remaining heights)) as (rest & -> & ->); [lia|lia|].
  cbn. eauto.
Qed.

Lemma getBlockRanges_fuel_enough fuel heights :
  (length heights < fuel)%nat ->
  getBlockRanges_fuel fuel heights = Some (getBlockRanges heights).
Proof.
  intros Hfuel. unfold getBlockRanges.
  destruct (getBlockRanges_fuel_stable fuel (S (length heights)) heights)
    as (ranges & -> & ->); [lia|lia|reflexivity].
Qed.

(** The function's own equation (lines 38-50). *)
Lemma getBlockRanges_eq heights :
  getBlockRanges heights =
  {| start := JS.Math_min heights |}
  :: (if (0 <? length (remaining heights))%nat then getBlockRanges (remaining heights) else []).
Proof.
  unfold getBlockRanges at 1. cbn [getBlockRanges_fuel].
  destruct (0 <? length (remaining heights))%nat eqn:Hrest; [|reflexivity].
  rewrite getBlockRanges_fuel_enough; [reflexivity|].
  apply remaining_shorter. intros ->. discriminate Hrest.
Qed.

(** On heights that are not empty the plan is as the helper's comment
    says: its [start]s increase strictly and are heights of the input. *)
Lemma getBlockRanges_nonempty n :
  forall heights,
    (length heights <= n)%nat -> heights <> [] ->
    increasing_starts (getBlockRanges heights) /\ starts_among heights (getBlockRanges heights).
Proof.
  unfold increasing_starts, starts_among.
  induction n as [|n IH]; intros heights Hlen Hne.
  { destruct heights; [congruence|cbn in Hlen; lia]. }
  destruct (Math_min_least heights Hne) as (m & Hm & Hin & Hle).
  rewrite getBlockRanges_eq, Hm.
  destruct (0 <? length (remaining heights))%nat eqn:Hrest.
  - assert (remaining heights <> []) as Hne' by (intros E; rewrite E in Hrest; discriminate).
    pose proof (remaining_shorter heights Hne) as Hlt.
    destruct (IH (remaining heights)) as [Hsorted Hamong]; [lia|exact Hne'|].
    split.
    + cbn [map]. constructor; [exact Hsorted|].
      apply List.Forall_map. eapply List.Forall_impl; [|exact Hamong].
      intros range (h & -> & Hh). apply (remaining_In _ _ _ Hm) in Hh.
      cbn. apply Z.ltb_lt. lia.
    + constructor; [exists m; auto|].
      eapply List.Forall_impl; [|exact Hamong].
      intros range (h & Hs & Hh). apply (remaining_In _ _ _ Hm) in Hh.
      exists h. tauto.
  - split; cbn [map].
    + constructor; constructor.
    + constructor; [exists m; auto|constructor].
Qed.

Lemma getBlockRanges_spaced n :
  forall heights,
    (length heights <= n)%nat -> heights <> [] -> spaced_starts (getBlockRanges heights).
Proof.
  unfold spaced_starts.
  induction n as [|n IH]; intros heights Hlen Hne.
  { destruct heights; [congruence|cbn in Hlen; lia]. }
  destruct (Math_min_least heights Hne) as (m & Hm & _).
  rewrite getBlockRanges_eq, Hm.
  destruct (0 <? length (remaining heights))%nat eqn:Hrest; cbn [map].
  - assert (remaining heights <> []) as Hne' by (intros E; rewrite E in Hrest; discriminate).
    pose proof (remaining_shorter heights Hne) as Hlt.
    constructor; [apply IH; [lia|exact Hne']|].
    destruct (getBlockRanges_nonempty (length (remaining heights)) (remaining heights))
      as [_ Hamong]; [lia|exact Hne'|].
    apply List.Forall_map. eapply List.Forall_impl; [|exact Hamong].
    intros range (h & -> & Hh). apply (remaining_In _ _ _ Hm) in Hh.
    cbn. apply Z.ltb_lt. lia.
  - constructor; constructor.
Qed.

Lemma getBlockRanges_covers n :
  forall heights h,
    (length heights <= n)%nat -> In h heights -> covered h (getBlockRanges heights).
Proof.
  unfold covered.
  induction n as [|n IH]; intros heights h Hlen Hin.
  { destruct heights; [destruct Hin|cbn in Hlen; lia]. }
  assert (heights <> []) as Hne by (intros ->; destruct Hin).
  destruct (Math_min_least heights Hne) as (m & Hm & _ & Hle).
  rewrite getBlockRanges_eq, Hm.
  destruct (Z_le_gt_dec h (m + 100)) as [Hnear|Hfar].
  - exists {| start := JS.Fin m |}, m. split; [left; reflexivity|].
    split; [reflexivity|]. specialize (Hle h Hin). lia.
  - assert (In h (remaining heights)) as Hkept
      by (apply (remaining_In _ _ _ Hm); split; [exact Hin|lia]).
    assert ((0 <? length (remaining heights))%nat = true) as ->
      by (destruct (remaining heights); [destruct Hkept|reflexivity]).
    pose proof (remaining_shorter heights Hne) as Hlt.
    destruct (IH (remaining heights) h) as (range & m' & Hrange & Hstart & Hm');
      [lia|exact Hkept|].
    exists range, m'. split; [right; exact Hrange|]. split; assumption.
Qed.

End Planner.

(** C5, on the empty list.  [getBlockRanges([])] takes [Math.min()], which
    is [Infinity], for its first range: the plan is [[{start: Infinity}]],
    and that [start] is no height of the input.  (On the lists that are not
    empty the claim holds: [getBlockRanges_plan] below.) *)
Theorem getBlockRanges_empty :
  getBlockRanges [] = [ {| start := JS.Infinity |} ]
  /\ ~ starts_among [] (getBlockRanges []).
Proof.
  split; [reflexivity|].
  intros H. apply Forall_inv in H. destruct H as (h & _ & []).
Qed.

(** X1.  The plan for heights that are not empty: the [start]s increase
    strictly, and each is a height of the input. *)
Theorem getBlockRanges_plan (heights : list Z) :
  heights <> [] ->
  increasing_starts (getBlockRanges heights) /\ starts_among heights (getBlockRanges heights).
Proof. intros Hne. exact (getBlockRanges_nonempty (length heights) heights (le_n _) Hne). Qed.

Lemma getBlockRanges_plan_witness :
  [600; 50; 140; 200; 150; 301] <> []
  /\ increasing_starts (getBlockRanges [600; 50; 140; 200; 150; 301])
  /\ starts_among [600; 50; 140; 200; 150; 301] (getBlockRanges [600; 50; 140; 200; 150; 301]).
Proof.
  split; [discriminate|].
  apply (getBlockRanges_plan [600; 50; 140; 200; 150; 301]). discriminate.
Defined.

(** X2.  Every height of the input is at most a page above the [start] of
    a range of the plan: [m <= h <= m + 100] for some [{start: m}]. *)
Theorem getBlockRanges_covers_heights (heights : list Z) (h : Z) :
  In h heights -> covered h (getBlockRanges heights).
Proof. intros Hin. exact (getBlockRanges_covers (length heights) heights h (le_n _) Hin). Qed.

Lemma getBlockRanges_covers_heights_witness :
  In 150 [600; 50; 140; 150; 301] /\ covered 150 (getBlockRanges [600; 50; 140; 150; 301]).
Proof.
  split; [cbn; tauto|].
  apply (getBlockRanges_covers_heights [600; 50; 140; 150; 301] 150). cbn. tauto.
Defined.

(** X3.  On heights that are not empty, two [start]s of the plan are more
    than a page (100) apart. *)
Theorem getBlockRanges_pages_apart (heights : list Z) :
  heights <> [] -> spaced_starts (getBlockRanges heights).
Proof. intros Hne. exact (getBlockRanges_spaced (length heights) heights (le_n _) Hne). Qed.

Lemma getBlockRanges_pages_apart_witness :
  [600; 50; 140; 150; 301] <> [] /\ spaced_starts (getBlockRanges [600; 50; 140; 150; 301]).
Proof.
  split; [discriminate|].
  apply (getBlockRanges_pages_apart [600; 50; 140; 150; 301]). discriminate.
Defined.

(** C6.  Where [m] is [Math.min] of the heights: [m] is the least of them,
    the plan starts with [{start: m}], the heights kept for the recursive
    call are exactly those above [m + 100] (a height [h <= m + 100] is
    dropped, [m + 100] itself included), and the rest of the plan is the
    plan of the heights kept, when there are any.  The three plans the spec
    gives are the code's. *)
Theorem getBlockRanges_boundary (heights : list Z) (m : Z) :
  JS.Math_min heights = JS.Fin m ->
  (In m heights /\ forall h, In h heights -> m <= h)
  /\ (forall h, In h (remaining heights) <-> In h heights /\ m + 100 < h)
  /\ getBlockRanges heights
     = {| start := JS.Fin m |}
       :: (if (0 <? length (remaining heights))%nat
           then getBlockRanges (remaining heights) else [])
  /\ getBlockRanges [50] = [ {| start := JS.Fin 50 |} ]
  /\ getBlockRanges [50; 200] = [ {| start := JS.Fin 50 |}; {| start := JS.Fin 200 |} ]
  /\ getBlockRanges [50; 140] = [ {| start := JS.Fin 50 |} ].
Proof.
  intros Hm. split; [|split; [|split]].
  - destruct (Math_min_least heights (Math_min_Fin _ _ Hm)) as (m' & Hm' & Hin & Hle).
    rewrite Hm in Hm'. injection Hm' as <-. split; assumption.
  - intros h. apply remaining_In, Hm.
  - rewrite getBlockRanges_eq, Hm. reflexivity.
  - repeat split; reflexivity.
Qed.

Lemma getBlockRanges_boundary_witness :
  JS.Math_min [200; 50; 150; 151] = JS.Fin 50
  /\ getBlockRanges [200; 50; 150; 151]
     = {| start := JS.Fin 50 |}
       :: (if (0 <? length (remaining [200; 50; 150; 151]%Z))%nat
           then getBlockRanges (remaining [200; 50; 150; 151]) else []).
Proof.
  split; [reflexivity|].
  apply (getBlockRanges_boundary [200; 50; 150; 151] 50). reflexivity.
Defined.

(** C10.  [getBlockRanges] returns on every list: with a bound on the depth
    of the recursion above the length of the list, the bounded function
    returns the plan.  The reason is the one claimed: either the list is
    empty and nothing is kept (no recursive call), or the minimum [m] is in
    the list and not among the heights kept, which are all above [m + 100],
    so that the list of the recursive call is strictly shorter. *)
Theorem getBlockRanges_terminates (heights : list Z) (fuel : nat) :
  (length heights < fuel)%nat ->
  getBlockRanges_fuel fuel heights = Some (getBlockRanges heights)
  /\ ((heights = [] /\ remaining heights = [])
      \/ (exists m, JS.Math_min heights = JS.Fin m
                    /\ In m heights
                    /\ ~ In m (remaining heights)
                    /\ Forall (fun h => m + 100 < h) (remaining heights)
                    /\ (length (remaining heights) < length heights)%nat)).
Proof.
  intros Hfuel. split; [apply getBlockRanges_fuel_enough, Hfuel|].
  destruct heights as [|h0 t]; [left; split; reflexivity|right].
  destruct (Math_min_least (h0 :: t)) as (m & Hm & Hin & _); [discriminate|].
  exists m. split; [exact Hm|]. split; [exact Hin|]. split; [|split].
  - intros Hkept. apply (remaining_In _ _ _ Hm) in Hkept. lia.
  - apply List.Forall_forall. intros h Hh. apply (remaining_In _ _ _ Hm) in Hh. lia.
  - apply remaining_shorter. discriminate.
Qed.

Lemma getBlockRanges_terminates_witness :
  (length [7; 300; 107; 108; 8]%Z < 6)%nat
  /\ getBlockRanges_fuel 6 [7; 300; 107; 108; 8] = Some (getBlockRanges [7; 300; 107; 108; 8]).
Proof.
  split; [cbn; lia|].
  apply (getBlockRanges_terminates [7; 300; 107; 108; 8] 6). cbn. lia.
Defined.

(** ** The actions *)

(** Unfolds the steps of an action down to functions on the world. *)
Ltac run :=
  unfold actions.initialize, actions.uninitialize, actions.initialize_callback,
    actions.SET_CURRENT_PEER, actions.ADD_KNOWN_PEER, actions.REMOVE_KNOWN_PEER,
    actions.UNSUBSCRIBE, actions.RESET_SUBSCRIPTIONS, actions.SUBSCRIBE,
    Lock_initialize, Lock_uninitialize, RESTService_create, await_request, request,
    await, lift, getter, perform, commit, commit_partial, try_catch, throw, unawaited,
    mbind, M_bind, mret, M_ret;
  cbn.

Section Initialize.
Variable U : URLHelpers.
Variable T : RESTService.
Implicit Types (w : World) (state : State).

Lemma isConnected_networkType type state :
  isConnected (mutations.networkType type state) = isConnected state.
Proof. unfold mutations.networkType. destruct (_ || _); reflexivity. Qed.

(** C7.  When the three repositories are created and the three requests
    are answered, [initialize] returns normally and leaves the store
    connected, initialized, and at the height the node answered. *)
Theorem initialize_success w (networkType : Z) (peerInfo : NodeInfo) (height : Z) :
  create T "NetworkHttp" (url (currentPeer (store w))) = JS.Normal tt ->
  create T "ChainHttp" (url (currentPeer (store w))) = JS.Normal tt ->
  create T "NodeHttp" (url (currentPeer (store w))) = JS.Normal tt ->
  getNetworkType T (url (currentPeer (store w))) = Returns (Fulfilled networkType) ->
  getNodeInfo T (url (currentPeer (store w))) = Returns (Fulfilled peerInfo) ->
  getBlockchainHeight T (url (currentPeer (store w))) = Returns (Fulfilled height) ->
  exists w',
    actions.initialize U T w = (JS.Normal tt, w')
    /\ isConnected (store w') = true
    /\ initialized (store w') = true
    /\ currentHeight (store w') = height.
Proof.
  intros Hc1 Hc2 Hc3 Hnt Hinfo Hh. run.
  rewrite Hc1, Hc2, Hc3, Hnt. cbn. rewrite Hinfo. cbn. rewrite Hh. cbn.
  eexists. split; [reflexivity|]. cbn.
  rewrite isConnected_networkType. auto.
Qed.

(** C1, as the code has it.  When one of the three requests fails,
    [initialize] logs the error and returns normally; [initialized] is as
    it was.  The store is untouched when the network type could not be
    read; when the network type was read and a later request fails, the
    peer has been committed again and the store is connected
    ([connected]), and nothing else changed. *)
Theorem initialize_failure w :
  call_failed (getNetworkType T (url (currentPeer (store w)))) = true
  \/ call_failed (getNodeInfo T (url (currentPeer (store w)))) = true
  \/ call_failed (getBlockchainHeight T (url (currentPeer (store w)))) = true ->
  exists w' e,
    actions.initialize U T w = (JS.Normal tt, w')
    /\ (exists before,
          trace w' = before ++ [ConsoleLog ("Error in Store network/initialize: " +:+ error_text e)])
    /\ initialized (store w') = initialized (store w)
    /\ (store w' = store w \/ store w' = connected U (store w))
    /\ (call_failed (getNetworkType T (url (currentPeer (store w)))) = true ->
        store w' = store w)
    /\ (create T "NetworkHttp" (url (currentPeer (store w))) = JS.Normal tt ->
        create T "ChainHttp" (url (currentPeer (store w))) = JS.Normal tt ->
        create T "NodeHttp" (url (currentPeer (store w))) = JS.Normal tt ->
        call_failed (getNetworkType T (url (currentPeer (store w)))) = false ->
        store w' = connected U (store w)).
Proof.
  intros Hfail. run.
  destruct (create T "NetworkHttp" _) as [[]|e1]; cbn;
    [|do 2 eexists; repeat split; intros; eauto; discriminate].
  destruct (create T "ChainHttp" _) as [[]|e2]; cbn;
    [|do 2 eexists; repeat split; intros; eauto; discriminate].
  destruct (create T "NodeHttp" _) as [[]|e3]; cbn;
    [|do 2 eexists; repeat split; intros; eauto; discriminate].
  destruct (getNetworkType T _) as [[nt|e]|e]; cbn;
    [|do 2 eexists; repeat split; intros; eauto; discriminate..].
  destruct (getNodeInfo T _) as [[info|e]|e]; cbn;
    [|do 2 eexists; repeat split; intros; eauto; discriminate..].
  destruct (getBlockchainHeight T _) as [[h|e]|e]; cbn;
    [|do 2 eexists; repeat split; intros; eauto; discriminate..].
  cbn in Hfail. destruct Hfail as [?|[?|?]]; discriminate.
Qed.

End Initialize.

Lemma initialize_success_witness :
  getBlockchainHeight sample.node_up sample.node = Returns (Fulfilled 1234)
  /\ exists w',
      actions.initialize sample.helpers sample.node_up sample.world = (JS.Normal tt, w')
      /\ isConnected (store w') = true
      /\ initialized (store w') = true
      /\ currentHeight (store w') = 1234.
Proof.
  split; [reflexivity|].
  apply (initialize_success sample.helpers sample.node_up sample.world
           NetworkType.TEST_NET "node-info" 1234); reflexivity.
Defined.

Lemma initialize_failure_witness :
  call_failed (getNodeInfo sample.node_info_down sample.node) = true
  /\ exists w',
      actions.initialize sample.helpers sample.node_info_down sample.world = (JS.Normal tt, w')
      /\ initialized (store w') = false
      /\ store w' = connected sample.helpers sample.state.
Proof.
  split; [reflexivity|].
  destruct (initialize_failure sample.helpers sample.node_info_down sample.world)
    as (w' & e & Hrun & _ & Hinitialized & _ & _ & Hconnected);
    [right; left; reflexivity|].
  exists w'. split; [exact Hrun|]. split; [exact Hinitialized|].
  apply Hconnected; reflexivity.
Defined.

(** C1 with "the state remains unchanged" does not hold: on a node that
    tells its network type and then fails to answer [getNodeInfo],
    [initialize] has already committed the connection, and the store it
    leaves is not the store it found ([isConnected] went from [false] to
    [true]). *)
Lemma initialize_failure_changes_store :
  ~ (forall (U : URLHelpers) (T : RESTService) (w : World),
       call_failed (getNetworkType T (url (currentPeer (store w)))) = true
       \/ call_failed (getNodeInfo T (url (currentPeer (store w)))) = true
       \/ call_failed (getBlockchainHeight T (url (currentPeer (store w)))) = true ->
       initialized (store w) = false ->
       exists w',
         actions.initialize U T w = (JS.Normal tt, w')
         /\ store w' = store w
         /\ initialized (store w') = false).
Proof.
  intros claim.
  destruct (claim sample.helpers sample.node_info_down sample.world)
    as (w' & Hrun & Hstore & _); [right; left; reflexivity|reflexivity|].
  revert Hrun. run. intros [= <-].
  apply (f_equal isConnected) in Hstore. discriminate Hstore.
Qed.

Section Peers.
Variable U : URLHelpers.
Variable T : RESTService.
Implicit Types (w : World).

(** C8.  On a url that [URLHelpers.isValidURL] rejects,
    [SET_CURRENT_PEER] throws its error to the caller before any commit:
    the store and the trace are as they were. *)
Theorem SET_CURRENT_PEER_invalid (currentPeerUrl : string) w :
  isValidURL U currentPeerUrl = false ->
  actions.SET_CURRENT_PEER U T currentPeerUrl w
  = (JS.Throw (JS.Error ("Cannot change node. URL is not valid: " +:+ currentPeerUrl)), w).
Proof. intros Hinvalid. run. rewrite Hinvalid. reflexivity. Qed.

(** C9, on a url.  [removePeer] hands the url itself to [findIndex], which
    wants a function: the mutation throws a [TypeError] whether the url is
    a known peer or not.  The known peers, and the rest of the store, are
    as they were. *)
Theorem REMOVE_KNOWN_PEER_url (peerUrl : string) w :
  actions.REMOVE_KNOWN_PEER (Str peerUrl) w
  = (JS.Throw (JS.TypeError (peerUrl +:+ " is not a function")), w).
Proof. reflexivity. Qed.

Lemma set_knownPeers_same (state : State) : set_knownPeers (knownPeers state) state = state.
Proof. destruct state; reflexivity. Qed.

(** With a predicate for a payload, [REMOVE_KNOWN_PEER] on a peer that is
    not known changes nothing. *)
Lemma REMOVE_KNOWN_PEER_absent (f : option string -> bool) w :
  JS.findIndex_from f 0 (knownPeers (store w)) = -1 ->
  actions.REMOVE_KNOWN_PEER (Fn f) w = (JS.Normal tt, w).
Proof.
  intros Habsent. run. unfold mutations.removePeer, findIndex. cbn. rewrite Habsent.
  cbn. rewrite set_knownPeers_same. destruct w; reflexivity.
Qed.

End Peers.

Lemma SET_CURRENT_PEER_invalid_witness :
  isValidURL sample.helpers "not a url" = false
  /\ actions.SET_CURRENT_PEER sample.helpers sample.node_up "not a url" sample.world
     = (JS.Throw (JS.Error "Cannot change node. URL is not valid: not a url"), sample.world).
Proof.
  split; [reflexivity|].
  apply (SET_CURRENT_PEER_invalid sample.helpers sample.node_up "not a url" sample.world).
  reflexivity.
Defined.

Section FetchBlocks.
Variable T : RESTService.
Implicit Types (w : World) (heights : list Z) (blocks : list BlockInfo).

(** [ranges.map] sends one request per range and goes on, whatever the
    node does with them. *)
Lemma for_each_fetch_page (currentPeer : string) (ranges : list BlockRangeType) :
  forall w,
    for_each (actions.fetch_page T currentPeer) ranges w
    = (JS.Normal tt,
       {| store := store w; trace := trace w ++ page_requests currentPeer ranges |}).
Proof.
  induction ranges as [|range ranges IH]; intros w.
  - cbn. rewrite app_nil_r. destruct w; reflexivity.
  - cbn [for_each page_requests map]. unfold mbind, M_bind.
    assert (actions.fetch_page T currentPeer range w
            = (JS.Normal tt,
               {| store := store w;
                  trace := trace w ++ [Request currentPeer "getBlocksByHeightWithLimit"
                                         [JS.toString (start range); "100"]] |})) as ->.
    { unfold actions.fetch_page, unawaited, request, perform, throw, mbind, M_bind, mret, M_ret.
      cbn. destruct (getBlocksByHeightWithLimit T _ _ _); reflexivity. }
    rewrite IH. cbn. rewrite <- app_assoc. reflexivity.
Qed.

Lemma for_each_addBlock blocks :
  forall w,
    for_each (fun block => commit (mutations.addBlock block)) blocks w
    = (JS.Normal tt, {| store := blocks_added blocks (store w); trace := trace w |}).
Proof.
  induction blocks as [|block blocks IH]; intros w.
  - destruct w; reflexivity.
  - cbn [for_each]. unfold mbind, M_bind, commit at 1. rewrite IH. reflexivity.
Qed.

(** The handler of the timer finds no range left in [ranges]. *)
Lemma slice_from_slice {A : Type} (a : list A) : JS.slice_from 3 (JS.slice 0 3 a) = [].
Proof.
  unfold JS.slice_from, JS.slice. cbn. destruct a as [|? [|? [|? ?]]]; reflexivity.
Qed.

(** Lines 292-321 in one equation, for a repository that could be created:
    the timer when there are more than three ranges, the requests of the
    first three at most, the known blocks into the store again, and the
    known blocks for a result. *)
Lemma fetch_ranges_run heights blocks w :
  create T "BlockHttp" (url (currentPeer (store w))) = JS.Normal tt ->
  actions.fetch_ranges T heights blocks w
  = (JS.Normal (ReturnBlocks blocks),
     {| store := blocks_added blocks (store w);
        trace := trace w
                 ++ (if (3 <? length (getBlockRanges heights))%nat
                     then [SetInterval [] 3000] else [])
                 ++ [Create "BlockHttp" (url (currentPeer (store w)))]
                 ++ page_requests (url (currentPeer (store w)))
                      (take 3 (getBlockRanges heights)) |}).
Proof.
  intros Hcreate. unfold actions.fetch_ranges.
  destruct (3 <? length (getBlockRanges heights))%nat eqn:Hmany.
  - rewrite slice_from_slice.
    unfold RESTService_create, lift, getter, perform, try_catch, mbind, M_bind, mret, M_ret.
    cbn. rewrite Hcreate, for_each_fetch_page. cbn. rewrite for_each_addBlock. cbn.
    rewrite <- !app_assoc. reflexivity.
  - apply Nat.ltb_ge in Hmany.
    unfold RESTService_create, lift, getter, perform, try_catch, mbind, M_bind, mret, M_ret.
    cbn. rewrite Hcreate, for_each_fetch_page. cbn. rewrite for_each_addBlock. cbn.
    rewrite take_ge by exact Hmany. rewrite <- !app_assoc. reflexivity.
Qed.

(** C2, on the empty list of heights.  [REST_FETCH_BLOCKS([])] sends the
    one request the plan of no heights holds, from [Infinity] on, and
    returns the empty list of blocks whatever the node does with the
    request: that it throws or rejects is not reported, and the page it
    may answer is not among the blocks returned. *)
Theorem REST_FETCH_BLOCKS_empty w :
  create T "BlockHttp" (url (currentPeer (store w))) = JS.Normal tt ->
  actions.REST_FETCH_BLOCKS T [] w
  = (JS.Normal (ReturnBlocks []),
     {| store := store w;
        trace := trace w
                 ++ [Create "BlockHttp" (url (currentPeer (store w)));
                     Request (url (currentPeer (store w))) "getBlocksByHeightWithLimit"
                       ["Infinity"; "100"]] |}).
Proof.
  intros Hcreate. unfold actions.REST_FETCH_BLOCKS, getter, lift, mbind at 1 2 3 4, M_bind.
  cbn [filter_cb map_cb mret completion_ret]. cbn beta iota.
  change (omap id []) with (@nil BlockInfo).
  rewrite (fetch_ranges_run [] [] w Hcreate). reflexivity.
Qed.

(** C3, from line 292 on.  When the plan has more than three ranges, the
    requests of the first three are sent at once, and the timer that is
    set fires every 3000 ms with the empty list for a payload: the ranges
    after the third are in no request and in no timer. *)
Theorem fetch_ranges_more_than_three heights blocks w :
  (3 < length (getBlockRanges heights))%nat ->
  create T "BlockHttp" (url (currentPeer (store w))) = JS.Normal tt ->
  exists r1 r2 r3 r4 later,
    getBlockRanges heights = r1 :: r2 :: r3 :: r4 :: later
    /\ actions.fetch_ranges T heights blocks w
       = (JS.Normal (ReturnBlocks blocks),
          {| store := blocks_added blocks (store w);
             trace := trace w
                      ++ [SetInterval [] 3000;
                          Create "BlockHttp" (url (currentPeer (store w)))]
                      ++ page_requests (url (currentPeer (store w))) [r1; r2; r3] |}).
Proof.
  intros Hmany Hcreate. rewrite (fetch_ranges_run heights blocks w Hcreate).
  destruct (getBlockRanges heights) as [|r1 [|r2 [|r3 [|r4 later]]]] eqn:Hplan;
    cbn in Hmany; try lia.
  exists r1, r2, r3, r4, later. split; reflexivity.
Qed.

(** C4.  On a list of heights that is not empty, [REST_FETCH_BLOCKS]
    throws at the first test of line 284, [knownBlocks.find] being no
    function of the store's plain object: whether the height is in the
    store or not, no block is served, the planner is not reached, and
    nothing is requested. *)
Theorem REST_FETCH_BLOCKS_nonempty (height : Z) heights w :
  actions.REST_FETCH_BLOCKS T (height :: heights) w
  = (JS.Throw (JS.TypeError "knownBlocks.find is not a function"), w).
Proof.
  unfold actions.REST_FETCH_BLOCKS, getter, lift, mbind at 1 2, M_bind.
  cbn [filter_cb]. unfold knownBlocks_find.
  destruct (knownBlocks (store w) !! "find"); reflexivity.
Qed.

End FetchBlocks.

Lemma REST_FETCH_BLOCKS_empty_witness :
  create sample.node_down "BlockHttp" sample.node = JS.Normal tt
  /\ getBlocksByHeightWithLimit sample.node_down sample.node "Infinity" 100
     = Throws (JS.Error "unreachable")
  /\ actions.REST_FETCH_BLOCKS sample.node_down [] sample.world
     = (JS.Normal (ReturnBlocks []),
        {| store := sample.state;
           trace := [Create "BlockHttp" sample.node;
                     Request sample.node "getBlocksByHeightWithLimit" ["Infinity"; "100"]] |}).
Proof.
  split; [reflexivity|]. split; [reflexivity|].
  apply (REST_FETCH_BLOCKS_empty sample.node_down sample.world). reflexivity.
Defined.

Lemma fetch_ranges_more_than_three_witness :
  (3 < length (getBlockRanges [1; 200; 400; 600]%Z))%nat
  /\ actions.fetch_ranges sample.node_up [1; 200; 400; 600] [] sample.world
     = (JS.Normal (ReturnBlocks []),
        {| store := sample.state;
           trace := [SetInterval [] 3000;
                     Create "BlockHttp" sample.node;
                     Request sample.node "getBlocksByHeightWithLimit" ["1"; "100"];
                     Request sample.node "getBlocksByHeightWithLimit" ["200"; "100"];
                     Request sample.node "getBlocksByHeightWithLimit" ["400"; "100"]] |}).
Proof.
  split; [vm_compute; lia|].
  destruct (fetch_ranges_more_than_three sample.node_up [1; 200; 400; 600] [] sample.world)
    as (r1 & r2 & r3 & r4 & later & Hplan & Hrun); [vm_compute; lia|reflexivity|].
  vm_compute in Hplan. injection Hplan as <- <- <- <- <-. exact Hrun.
Defined.

(** A known block asked for: the block of height 5 is in the store, and
    [REST_FETCH_BLOCKS([5])] throws; the world is as it was. *)
Example REST_FETCH_BLOCKS_known_block :
  knownBlocks (store sample.world_with_block) !! "5" = Some (sample.block 5)
  /\ actions.REST_FETCH_BLOCKS sample.node_up [5] sample.world_with_block
     = (JS.Throw (JS.TypeError "knownBlocks.find is not a function"), sample.world_with_block).
Proof. split; reflexivity. Qed.

(** No height asked for, on a node that answers: the page reaches the
    variable [blocks] when the request settles, after [REST_FETCH_BLOCKS]
    has returned the empty list and left the store without it. *)
Example REST_FETCH_BLOCKS_page_lost :
  getBlocksByHeightWithLimit sample.node_up sample.node "Infinity" 100
  = Returns (Fulfilled [sample.block 1; sample.block 2])
  /\ page_settled (Fulfilled [sample.block 1; sample.block 2]) []
     = [sample.block 1; sample.block 2]
  /\ fst (actions.REST_FETCH_BLOCKS sample.node_up [] sample.world) = JS.Normal (ReturnBlocks [])
  /\ knownBlocks (store (snd (actions.REST_FETCH_BLOCKS sample.node_up [] sample.world))) = ∅.
Proof. repeat split; reflexivity. Qed.

Section Answers.
Variables T T' : RESTService.
Hypothesis same_create : forall name nodeUrl, create T name nodeUrl = create T' name nodeUrl.

Lemma fetch_ranges_same heights blocks w :
  actions.fetch_ranges T heights blocks w = actions.fetch_ranges T' heights blocks w.
Proof.
  unfold actions.fetch_ranges.
  destruct (3 <? length (getBlockRanges heights))%nat;
    unfold RESTService_create, lift, getter, perform, try_catch, mbind, M_bind, mret, M_ret;
    cbn; rewrite same_create; destruct (create T' _ _); cbn;
    rewrite ?for_each_fetch_page; reflexivity.
Qed.

(** X4.  What [REST_FETCH_BLOCKS] returns, the store it leaves and the
    requests it sends are the same on two nodes that differ in their
    answers to [getBlocksByHeightWithLimit] only: no answer, failure or
    page, has a part in the run. *)
Theorem REST_FETCH_BLOCKS_same_on_any_answer (blockHeights : list Z) (w : World) :
  actions.REST_FETCH_BLOCKS T blockHeights w = actions.REST_FETCH_BLOCKS T' blockHeights w.
Proof.
  destruct blockHeights as [|height heights].
  - unfold actions.REST_FETCH_BLOCKS, getter, lift, mbind at 1 2 3 4 5 6 7 8, M_bind.
    cbn [filter_cb map_cb mret completion_ret]. cbn beta iota.
    apply fetch_ranges_same.
  - unfold actions.REST_FETCH_BLOCKS, getter, lift. cbn [filter_cb].
    unfold knownBlocks_find, mbind, M_bind, completion_bind.
    destruct (knownBlocks (store w) !! "find"); reflexivity.
Qed.

End Answers.

Lemma REST_FETCH_BLOCKS_same_on_any_answer_witness :
  (forall name nodeUrl,
     create sample.node_up name nodeUrl = create sample.node_down name nodeUrl)
  /\ actions.REST_FETCH_BLOCKS sample.node_up [] sample.world
     = actions.REST_FETCH_BLOCKS sample.node_down [] sample.world.
Proof.
  split; [reflexivity|].
  apply (REST_FETCH_BLOCKS_same_on_any_answer sample.node_up sample.node_down).
  reflexivity.
Defined.

Section Uninitialize.
Implicit Types (w : World).

Lemma for_each_unsubscribe (subs : list nat) :
  forall w,
    for_each (fun sub => perform (Unsubscribe sub)) subs w
    = (JS.Normal tt, {| store := store w; trace := trace w ++ map Unsubscribe subs |}).
Proof.
  induction subs as [|sub subs IH]; intros w.
  - cbn. rewrite app_nil_r. destruct w; reflexivity.
  - cbn [for_each map]. unfold mbind, M_bind, perform at 1. rewrite IH. cbn.
    rewrite <- app_assoc. reflexivity.
Qed.

Lemma for_each_teardown (subscriptions : list SubscriptionType) :
  forall w,
    for_each (fun subscription =>
                for_each (fun sub => perform (Unsubscribe sub)) (channels subscription) ;;
                perform (Close (listener subscription)))
             subscriptions w
    = (JS.Normal tt, {| store := store w; trace := trace w ++ teardown subscriptions |}).
Proof.
  induction subscriptions as [|subscription subscriptions IH]; intros w.
  - cbn. rewrite app_nil_r. destruct w; reflexivity.
  - cbn [for_each teardown flat_map]. unfold mbind, M_bind. cbv beta.
    rewrite for_each_unsubscribe. unfold perform at 1. cbn [store trace].
    rewrite IH. cbn [store trace]. fold (teardown subscriptions).
    rewrite <- !app_assoc. reflexivity.
Qed.

(** [uninitialize] in one equation: the subscriptions torn down and
    forgotten, the store not initialized. *)
Lemma uninitialize_run w :
  actions.uninitialize w
  = (JS.Normal tt,
     {| store := mutations.setInitialized false
                   (mutations.setSubscriptions [] (store w));
        trace := trace w ++ teardown (subscriptions (store w)) |}).
Proof.
  unfold actions.uninitialize, Lock_uninitialize, actions.UNSUBSCRIBE,
    actions.RESET_SUBSCRIPTIONS.
  unfold mbind, M_bind, getter. cbv beta. rewrite for_each_teardown.
  unfold commit. reflexivity.
Qed.


End Uninitialize.

Section SwitchPeer.
Variable U : URLHelpers.
Variable T : RESTService.
Implicit Types (w : World).

(** The store [initialize] leaves when everything succeeds. *)
Lemma initialize_run w (networkType : Z) (peerInfo : NodeInfo) (height : Z) :
  create T "NetworkHttp" (url (currentPeer (store w))) = JS.Normal tt ->
  create T "ChainHttp" (url (currentPeer (store w))) = JS.Normal tt ->
  create T "NodeHttp" (url (currentPeer (store w))) = JS.Normal tt ->
  getNetworkType T (url (currentPeer (store w))) = Returns (Fulfilled networkType) ->
  getNodeInfo T (url (currentPeer (store w))) = Returns (Fulfilled peerInfo) ->
  getBlockchainHeight T (url (currentPeer (store w))) = Returns (Fulfilled height) ->
  exists events,
    actions.initialize U T w
    = (JS.Normal tt,
       {| store := mutations.setInitialized true
                     (mutations.currentPeerInfo peerInfo
                        (mutations.currentHeight height
                           (mutations.networkType networkType (connected U (store w)))));
          trace := events |}).
Proof.
  intros Hc1 Hc2 Hc3 Hnt Hinfo Hh. run.
  rewrite Hc1, Hc2, Hc3, Hnt. cbn. rewrite Hinfo. cbn. rewrite Hh. cbn.
  eexists. reflexivity.
Qed.

(** X6.  On a url that [URLHelpers.isValidURL] accepts and a node that
    answers, [SET_CURRENT_PEER] ends with the peer formatted from the url
    (formatted once more by [initialize], from the peer's own url), the
    websocket endpoint derived from that peer, and the store connected,
    initialized and at the node's height. *)
Theorem SET_CURRENT_PEER_valid (currentPeerUrl : string) w
    (networkType : Z) (peerInfo : NodeInfo) (height : Z) :
  isValidURL U currentPeerUrl = true ->
  create T "NetworkHttp" (url (formatUrl U currentPeerUrl)) = JS.Normal tt ->
  create T "ChainHttp" (url (formatUrl U currentPeerUrl)) = JS.Normal tt ->
  create T "NodeHttp" (url (formatUrl U currentPeerUrl)) = JS.Normal tt ->
  getNetworkType T (url (formatUrl U currentPeerUrl)) = Returns (Fulfilled networkType) ->
  getNodeInfo T (url (formatUrl U currentPeerUrl)) = Returns (Fulfilled peerInfo) ->
  getBlockchainHeight T (url (formatUrl U currentPeerUrl)) = Returns (Fulfilled height) ->
  exists w',
    actions.SET_CURRENT_PEER U T currentPeerUrl w = (JS.Normal tt, w')
    /\ currentPeer (store w') = formatUrl U (url (formatUrl U currentPeerUrl))
    /\ wsEndpoint (store w') = httpToWsUrl U (url (currentPeer (store w')))
    /\ isConnected (store w') = true
    /\ initialized (store w') = true
    /\ currentHeight (store w') = height.
Proof.
  intros Hvalid Hc1 Hc2 Hc3 Hnt Hinfo Hh.
  unfold actions.SET_CURRENT_PEER. rewrite Hvalid. cbn [negb].
  unfold mbind, M_bind, commit. cbv beta. rewrite uninitialize_run. cbv beta iota.
  match goal with
  | |- context [actions.initialize U T ?w1] =>
      destruct (initialize_run w1 networkType peerInfo height) as [events ->];
      [assumption..|]
  end.
  eexists. split; [reflexivity|]. cbn.
  unfold mutations.networkType. destruct (_ || _); cbn; auto.
Qed.

End SwitchPeer.

Lemma SET_CURRENT_PEER_valid_witness :
  isValidURL sample.helpers "http://other:3000" = true
  /\ exists w',
      actions.SET_CURRENT_PEER sample.helpers sample.node_up "http://other:3000" sample.world
      = (JS.Normal tt, w')
      /\ currentPeer (store w') = {| url := "http://other:3000" |}
      /\ wsEndpoint (store w') = "ws://other:3000"
      /\ isConnected (store w') = true
      /\ initialized (store w') = true
      /\ currentHeight (store w') = 1234.
Proof.
  split; [reflexivity|].
  destruct (SET_CURRENT_PEER_valid sample.helpers sample.node_up "http://other:3000"
              sample.world NetworkType.TEST_NET "node-info" 1234)
    as (w' & Hrun & Hpeer & Hws & Hrest); try reflexivity.
  exists w'. split; [exact Hrun|]. split; [exact Hpeer|]. split; [|exact Hrest].
  rewrite Hws, Hpeer. reflexivity.
Defined.

(** ** More on the block range helper *)

Section PlannerMore.
Implicit Types (heights pages : list Z) (h m s : Z).

Lemma same_heights_nil heights : same_heights [] heights -> heights = [].
Proof.
  intros Hsame. destruct heights as [|h t]; [reflexivity|].
  destruct (proj2 (Hsame h)). left; reflexivity.
Qed.

Lemma Math_min_same heights heights' :
  same_heights heights heights' -> JS.Math_min heights = JS.Math_min heights'.
Proof.
  intros Hsame. destruct heights as [|h0 t].
  - rewrite (same_heights_nil _ Hsame). reflexivity.
  - assert (heights' <> []) as Hne'.
    { intros ->. destruct (proj1 (Hsame h0)). left; reflexivity. }
    destruct (Math_min_least (h0 :: t)) as (m & -> & Hin & Hle); [discriminate|].
    destruct (Math_min_least heights' Hne') as (m' & -> & Hin' & Hle').
    f_equal. apply Hsame in Hin. apply Hsame in Hin'.
    specialize (Hle m' Hin'). specialize (Hle' m Hin). lia.
Qed.

Lemma remaining_same heights heights' :
  same_heights heights heights' -> same_heights (remaining heights) (remaining heights').
Proof.
  intros Hsame h. unfold remaining. rewrite !filter_In.
  rewrite (Math_min_same _ _ Hsame), (Hsame h). reflexivity.
Qed.

Lemma getBlockRanges_same n :
  forall heights heights',
    (length heights <= n)%nat -> same_heights heights heights' ->
    getBlockRanges heights = getBlockRanges heights'.
Proof.
  induction n as [|n IH]; intros heights heights' Hlen Hsame.
  { destruct heights; [|cbn in Hlen; lia].
    rewrite (same_heights_nil _ Hsame). reflexivity. }
  rewrite (getBlockRanges_eq heights), (getBlockRanges_eq heights').
  rewrite (Math_min_same _ _ Hsame). f_equal.
  pose proof (remaining_same _ _ Hsame) as Hrest.
  assert ((0 <? length (remaining heights))%nat = (0 <? length (remaining heights'))%nat)
    as <-.
  { destruct (remaining heights) as [|h0 t].
    - rewrite (same_heights_nil _ Hrest). reflexivity.
    - destruct (remaining heights') as [|h0' t']; [|reflexivity].
      destruct (proj1 (Hrest h0)). left; reflexivity. }
  destruct (0 <? length (remaining heights))%nat eqn:Hkept; [|reflexivity].
  apply IH; [|exact Hrest].
  assert (heights <> []) as Hne by (intros ->; discriminate Hkept).
  pose proof (remaining_shorter heights Hne). lia.
Qed.

Lemma getBlockRanges_least n :
  forall heights pages,
    (length heights <= n)%nat -> heights <> [] -> pages_reach pages heights ->
    (length (getBlockRanges heights) <= length pages)%nat.
Proof.
  induction n as [|n IH]; intros heights pages Hlen Hne Hreach.
  { destruct heights; [congruence|cbn in Hlen; lia]. }
  destruct (Math_min_least heights Hne) as (m & Hm & Hin & Hle).
  destruct (Hreach m Hin) as (s & Hs & Hms).
  rewrite getBlockRanges_eq.
  destruct (0 <? length (remaining heights))%nat eqn:Hrest.
  - assert (remaining heights <> []) as Hne' by (intros E; rewrite E in Hrest; discriminate).
    pose proof (remaining_shorter heights Hne) as Hlt.
    set (pages' := List.filter (fun s' => negb (s' =? s)) pages).
    assert (length pages' < length pages)%nat as Hfewer.
    { apply (filter_length_lt _ _ s Hs). rewrite Z.eqb_refl. reflexivity. }
    assert (pages_reach pages' (remaining heights)) as Hreach'.
    { intros h Hh. apply (remaining_In _ _ _ Hm) in Hh. destruct Hh as [Hh Hfar].
      destruct (Hreach h Hh) as (s' & Hs' & Hhs'). exists s'. split; [|exact Hhs'].
      apply filter_In. split; [exact Hs'|].
      apply negb_true_iff, Z.eqb_neq. lia. }
    specialize (IH (remaining heights) pages' ltac:(lia) Hne' Hreach').
    cbn [length]. lia.
  - cbn [length]. destruct pages; [destruct Hs|cbn; lia].
Qed.

End PlannerMore.

(** X7.  The plan depends on the heights as a set: two lists that hold the
    same heights, in any order and with any repetitions, get the same
    plan. *)
Theorem getBlockRanges_set (heights heights' : list Z) :
  same_heights heights heights' -> getBlockRanges heights = getBlockRanges heights'.
Proof. intros Hsame. exact (getBlockRanges_same (length heights) _ _ (le_n _) Hsame). Qed.

Lemma getBlockRanges_set_witness :
  same_heights [300; 7; 7; 120] [7; 120; 300; 300]
  /\ getBlockRanges [300; 7; 7; 120] = getBlockRanges [7; 120; 300; 300].
Proof.
  assert (same_heights [300; 7; 7; 120] [7; 120; 300; 300]) as Hsame
    by (intros h; cbn; intuition).
  split; [exact Hsame|]. apply (getBlockRanges_set _ _ Hsame).
Defined.

(** X8.  The plan is as short as can be: no list of page starts that
    reaches every height (each height at most 100 above a start) is
    shorter than the plan of heights that are not empty.  In particular
    the plan has no more ranges than there are heights. *)
Theorem getBlockRanges_fewest (heights pages : list Z) :
  heights <> [] -> pages_reach pages heights ->
  (length (getBlockRanges heights) <= length pages)%nat
  /\ (1 <= length (getBlockRanges heights) <= length heights)%nat.
Proof.
  intros Hne Hreach. split; [|split].
  - exact (getBlockRanges_least (length heights) _ _ (le_n _) Hne Hreach).
  - rewrite getBlockRanges_eq. cbn. lia.
  - apply (getBlockRanges_least (length heights) _ _ (le_n _) Hne).
    intros h Hh. exists h. split; [exact Hh|lia].
Qed.

Lemma getBlockRanges_fewest_witness :
  [600; 50; 140; 150; 301] <> [] /\ pages_reach [520; 201; 50] [600; 50; 140; 150; 301]
  /\ (length (getBlockRanges [600; 50; 140; 150; 301]%Z) <= 3)%nat.
Proof.
  assert (pages_reach [520; 201; 50] [600; 50; 140; 150; 301]) as Hreach.
  { intros h [<-|[<-|[<-|[<-|[<-|[]]]]]];
      [exists 520|exists 50|exists 50|exists 50|exists 201]; cbn; intuition lia. }
  split; [discriminate|]. split; [exact Hreach|].
  apply (getBlockRanges_fewest [600; 50; 140; 150; 301] [520; 201; 50]);
    [discriminate|exact Hreach].
Defined.

(** ** Blocks and peers *)

Section BlocksAndPeers.
Variable U : URLHelpers.
Variable T : RESTService.
Implicit Types (w : World) (state : State).

(** X9.  After [ADD_BLOCK], the store answers for the block's height with
    that block (a block already there is replaced), and for every other
    height as before; nothing but [knownBlocks] changes. *)
Theorem ADD_BLOCK_lookup (block : BlockInfo) w (h : Z) :
  exists w',
    actions.ADD_BLOCK block w = (JS.Normal tt, w')
    /\ knownBlocks (store w') !! pretty h
       = (if decide (h = height block) then Some block
          else knownBlocks (store w) !! pretty h)
    /\ set_knownBlocks (knownBlocks (store w)) (store w') = store w
    /\ trace w' = trace w.
Proof.
  eexists. split; [reflexivity|]. cbn. split; [|split; [destruct w as [[]]; reflexivity|reflexivity]].
  destruct (decide (h = height block)) as [->|Hne].
  - apply lookup_insert_eq.
  - apply lookup_insert_ne. intros Heq. apply Hne. symmetry. exact (inj pretty _ _ Heq).
Qed.

Lemma ADD_KNOWN_PEER_run_eq (peerUrl : string) w :
  actions.ADD_KNOWN_PEER U peerUrl w
  = if isValidURL U peerUrl
    then (JS.Normal tt,
          {| store := set_knownPeers (knownPeers (store w) ++ [Some peerUrl]) (store w);
             trace := trace w |})
    else (JS.Throw (JS.Error ("Cannot add node. URL is not valid: " +:+ peerUrl)), w).
Proof. unfold actions.ADD_KNOWN_PEER. destruct (isValidURL U peerUrl); reflexivity. Qed.


(** [findIndex] answers [-1] when no slot passes, and otherwise the index
    of a slot that passes while none before it does. *)
Lemma findIndex_from_spec (f : option string -> bool) (a : JS.array string) :
  forall i,
    0 <= i ->
    (JS.findIndex_from f i a = -1 /\ Forall (fun x => f x = false) a)
    \/ (exists n x,
          JS.findIndex_from f i a = i + Z.of_nat n
          /\ a !! n = Some x /\ f x = true
          /\ Forall (fun y => f y = false) (take n a)).
Proof.
  induction a as [|x a IH]; intros i Hi; cbn [JS.findIndex_from].
  - left. split; [reflexivity|constructor].
  - destruct (f x) eqn:Hfx.
    + right. exists 0%nat, x. cbn. repeat split; [lia|assumption|constructor].
    + destruct (IH (i + 1)) as [[-> Hnone]|(n & y & -> & Hy & Hfy & Hbefore)]; [lia|..].
      * left. split; [reflexivity|constructor; assumption].
      * right. exists (S n), y. cbn. repeat split; [lia|assumption..|].
        constructor; assumption.
Qed.

(** X11.  With a predicate for a payload, [REMOVE_KNOWN_PEER] never
    throws and never shortens the array of known peers: when no slot
    passes the predicate the store is as it was, and otherwise the first
    slot that passes becomes a hole and every other slot stays where it
    is. *)
Theorem REMOVE_KNOWN_PEER_predicate (f : option string -> bool) w :
  exists w',
    actions.REMOVE_KNOWN_PEER (Fn f) w = (JS.Normal tt, w')
    /\ trace w' = trace w
    /\ length (knownPeers (store w')) = length (knownPeers (store w))
    /\ ((Forall (fun x => f x = false) (knownPeers (store w)) /\ store w' = store w)
        \/ (exists n x,
              knownPeers (store w) !! n = Some x /\ f x = true
              /\ Forall (fun y => f y = false) (take n (knownPeers (store w)))
              /\ store w'
                 = set_knownPeers (<[n := None]> (knownPeers (store w))) (store w))).
Proof.
  run. unfold mutations.removePeer, findIndex. cbn.
  eexists. split; [reflexivity|]. cbn. split; [reflexivity|].
  destruct (findIndex_from_spec f (knownPeers (store w)) 0)
    as [[-> Hnone]|(n & x & -> & Hx & Hfx & Hbefore)]; [lia|..].
  - cbn. split; [reflexivity|]. left. split; [exact Hnone|apply set_knownPeers_same].
  - unfold JS.delete_index. pose proof (lookup_lt_Some _ _ _ Hx) as Hlt.
    replace (0 <=? 0 + Z.of_nat n) with true by (symmetry; apply Z.leb_le; lia).
    replace (0 + Z.of_nat n <? Z.of_nat (length (knownPeers (store w)))) with true
      by (symmetry; apply Z.ltb_lt; lia).
    cbn [andb]. replace (Z.to_nat (0 + Z.of_nat n)) with n by lia.
    split; [apply length_insert|]. right. exists n, x. auto.
Qed.


End BlocksAndPeers.


(** ** The known peers in memory *)

Section SharedPeers.
Variable U : URLHelpers.
Implicit Types (m : shared.Memory).

Lemma array_at_write address a m : shared.array_at address (shared.write address a m) = a.
Proof. unfold shared.array_at, shared.write. cbn. rewrite lookup_insert_eq. reflexivity. Qed.

(** The mutations of the store's model are what the getter sees of the
    mutations in place. *)
Lemma shared_addPeer_knownPeers (peerUrl : string) m (state : State) :
  shared.knownPeers m = knownPeers state ->
  shared.knownPeers (shared.addPeer peerUrl m)
  = knownPeers (mutations.addPeer peerUrl state).
Proof.
  intros Hsame. unfold shared.addPeer, shared.knownPeers, shared.array_at in *. cbn.
  rewrite lookup_insert_eq. cbn. rewrite Hsame. reflexivity.
Qed.

Lemma shared_removePeer_knownPeers (peerUrl : payload) m (state : State) :
  shared.knownPeers m = knownPeers state ->
  match shared.removePeer peerUrl m, mutations.removePeer peerUrl state with
  | JS.Normal m', JS.Normal state' => shared.knownPeers m' = knownPeers state'
  | JS.Throw e, JS.Throw e' => e = e'
  | _, _ => False
  end.
Proof.
  intros Hsame. unfold shared.removePeer, mutations.removePeer, shared.knownPeers in *.
  rewrite Hsame. destruct (findIndex (knownPeers state) peerUrl) as [idx|e]; cbn;
    [|reflexivity].
  exact (array_at_write (shared.state_knownPeers m) _ m).
Qed.

(** The state and the configuration hold the same array. *)
Lemma dispatch_aliased (a : shared.action) m :
  shared.state_knownPeers m = shared.config_nodes m ->
  shared.state_knownPeers (shared.dispatch U a m) = shared.config_nodes (shared.dispatch U a m).
Proof.
  intros Halias. destruct a as [peerUrl|peerUrl|]; cbn.
  - destruct (isValidURL U peerUrl); cbn; exact Halias.
  - unfold shared.removePeer.
    destruct (findIndex _ peerUrl) as [idx|e]; cbn; exact Halias.
  - reflexivity.
Qed.

Lemma dispatch_all_aliased (actions : list shared.action) :
  forall m,
    shared.state_knownPeers m = shared.config_nodes m ->
    shared.state_knownPeers (shared.dispatch_all U actions m)
    = shared.config_nodes (shared.dispatch_all U actions m).
Proof.
  induction actions as [|a actions IH]; intros m Halias; [exact Halias|].
  cbn. apply IH, dispatch_aliased, Halias.
Qed.

(** X13.  Whatever actions on the known peers were dispatched since the
    module was loaded, [RESET_PEERS] changes nothing: the array it takes
    from the configuration is the array the state holds already, with every
    peer added since and every hole left in it, so that the known peers
    after the reset are the known peers before it, and are what the
    configuration holds for its nodes. *)
Theorem RESET_PEERS_restores_nothing (nodes : JS.array string) (actions : list shared.action) :
  shared.resetPeers (shared.dispatch_all U actions (shared.initial nodes))
  = shared.dispatch_all U actions (shared.initial nodes)
  /\ shared.configured (shared.dispatch_all U actions (shared.initial nodes))
     = shared.knownPeers (shared.dispatch_all U actions (shared.initial nodes)).
Proof.
  pose proof (dispatch_all_aliased actions (shared.initial nodes) eq_refl) as Halias.
  destruct (shared.dispatch_all U actions (shared.initial nodes)) as [arrays config state].
  cbn in Halias. subst state. split; reflexivity.
Qed.

(** X14.  A peer added is still the last known peer after [RESET_PEERS]:
    for a url that [URLHelpers.isValidURL] accepts, [ADD_KNOWN_PEER]
    followed by [RESET_PEERS], at any time since the module was loaded,
    leaves the known peers of before with the url at their end. *)
Theorem ADD_KNOWN_PEER_survives_RESET_PEERS
    (nodes : JS.array string) (actions : list shared.action) (peerUrl : string) :
  isValidURL U peerUrl = true ->
  shared.knownPeers
    (shared.dispatch_all U (actions ++ [shared.ADD_KNOWN_PEER peerUrl; shared.RESET_PEERS])
       (shared.initial nodes))
  = shared.knownPeers (shared.dispatch_all U actions (shared.initial nodes)) ++ [Some peerUrl].
Proof.
  intros Hvalid. unfold shared.dispatch_all. rewrite fold_left_app.
  fold (shared.dispatch_all U actions (shared.initial nodes)).
  pose proof (dispatch_all_aliased actions (shared.initial nodes) eq_refl) as Halias.
  destruct (shared.dispatch_all U actions (shared.initial nodes)) as [arrays config state].
  cbn in Halias. subst state. cbn. rewrite Hvalid. cbn.
  unfold shared.knownPeers, shared.resetPeers, shared.addPeer, shared.array_at. cbn.
  rewrite lookup_insert_eq. reflexivity.
Qed.

End SharedPeers.

Lemma ADD_KNOWN_PEER_survives_RESET_PEERS_witness :
  isValidURL sample.helpers "http://other:3000" = true
  /\ shared.knownPeers
       (shared.dispatch_all sample.helpers
          [shared.ADD_KNOWN_PEER "http://other:3000"; shared.RESET_PEERS]
          (shared.initial [Some sample.node]))
     = [Some sample.node; Some "http://other:3000"].
Proof.
  split; [reflexivity|].
  apply (ADD_KNOWN_PEER_survives_RESET_PEERS sample.helpers [Some sample.node] []
           "http://other:3000"). reflexivity.
Defined.

(** ** Every run of [initialize] *)

Section EveryRun.
Variable U : URLHelpers.
Variable T : RESTService.
Implicit Types (w : World) (state : State).

Lemma wsEndpoint_networkType type state :
  wsEndpoint (mutations.networkType type state) = wsEndpoint state.
Proof. unfold mutations.networkType. destruct (_ || _); reflexivity. Qed.

(** All the runs of [initialize]: it returns normally; when the node
    answers, the store is initialized and the last thing done is the
    subscription to the websocket endpoint of the peer just committed; when
    it does not, the store is as it was or just connected, and no
    subscription is opened. *)
Lemma initialize_cases w :
  exists w' events,
    actions.initialize U T w = (JS.Normal tt, w')
    /\ trace w' = trace w ++ events
    /\ if node_answers T (url (currentPeer (store w)))
       then exists type info h before,
           store w' = initialized_state U type info h (store w)
           /\ getNetworkType T (url (currentPeer (store w))) = Returns (Fulfilled type)
           /\ getBlockchainHeight T (url (currentPeer (store w))) = Returns (Fulfilled h)
           /\ events
              = before
                ++ [SubscribeBlocks
                      (httpToWsUrl U (url (formatUrl U (url (currentPeer (store w))))))]
           /\ no_subscription before = true
       else (store w' = store w \/ store w' = connected U (store w))
            /\ no_subscription events = true
            /\ (call_failed (getNetworkType T (url (currentPeer (store w)))) = true ->
                store w' = store w).
Proof.
  unfold node_answers. run.
  destruct (create T "NetworkHttp" _) as [[]|e1]; cbn;
    [|do 2 eexists; rewrite <- ?app_assoc; repeat split; intros; eauto; discriminate].
  destruct (create T "ChainHttp" _) as [[]|e2]; cbn;
    [|do 2 eexists; rewrite <- ?app_assoc; repeat split; intros; eauto; discriminate].
  destruct (create T "NodeHttp" _) as [[]|e3]; cbn;
    [|do 2 eexists; rewrite <- ?app_assoc; repeat split; intros; eauto; discriminate].
  destruct (getNetworkType T _) as [[nt|e]|e]; cbn;
    [|do 2 eexists; rewrite <- ?app_assoc; repeat split; intros; eauto; discriminate..].
  destruct (getNodeInfo T _) as [[info|e]|e]; cbn;
    [|do 2 eexists; rewrite <- ?app_assoc; repeat split; intros; eauto; discriminate..].
  destruct (getBlockchainHeight T _) as [[h|e]|e]; cbn;
    [|do 2 eexists; rewrite <- ?app_assoc; repeat split; intros; eauto; discriminate..].
  eexists.
  exists ([ConsoleLog ("network/initialize: nodeUrl: " +:+ url (currentPeer (store w)));
           Create "NetworkHttp" (url (currentPeer (store w)));
           Create "ChainHttp" (url (currentPeer (store w)));
           Create "NodeHttp" (url (currentPeer (store w)));
           Request (url (currentPeer (store w))) "getNetworkType" [];
           Emit "newConnection" (url (currentPeer (store w)));
           Request (url (currentPeer (store w))) "getNodeInfo" [];
           Request (url (currentPeer (store w))) "getBlockchainHeight" [];
           ConsoleLog ("network/initialize: peerInfo: " +:+ info);
           ConsoleLog ("network/initialize: currentHeight: " +:+ pretty h)]
          ++ [SubscribeBlocks
                (httpToWsUrl U (url (formatUrl U (url (currentPeer (store w))))))]).
  split; [reflexivity|]. split.
  { cbn. rewrite <- !app_assoc. cbn. rewrite wsEndpoint_networkType. reflexivity. }
  exists nt, info, h. eexists. repeat split; reflexivity.
Qed.

End EveryRun.

Section Outcomes.
Variable U : URLHelpers.
Variable T : RESTService.
Implicit Types (w : World) (state : State).

(** What [REST_FETCH_BLOCKS] comes to, on every list and every node. *)
Lemma REST_FETCH_BLOCKS_cases (blockHeights : list Z) w :
  exists events,
    actions.REST_FETCH_BLOCKS T blockHeights w
    = (match blockHeights with
       | [] =>
           if completes (create T "BlockHttp" (url (currentPeer (store w))))
           then JS.Normal (ReturnBlocks [])
           else JS.Normal ReturnFalse
       | _ :: _ => JS.Throw (JS.TypeError "knownBlocks.find is not a function")
       end,
       {| store := store w; trace := trace w ++ events |}).
Proof.
  destruct blockHeights as [|height heights].
  - unfold actions.REST_FETCH_BLOCKS, getter, lift, mbind at 1 2 3 4, M_bind.
    cbn [filter_cb map_cb mret completion_ret]. cbn beta iota.
    change (omap id []) with (@nil BlockInfo).
    destruct (create T "BlockHttp" (url (currentPeer (store w)))) as [[]|e] eqn:Hcreate.
    + rewrite (fetch_ranges_run T [] [] w Hcreate). cbn. eexists. reflexivity.
    + unfold actions.fetch_ranges. change (getBlockRanges []) with [ {| start := JS.Infinity |} ].
      unfold RESTService_create, lift, getter, perform, try_catch, mbind, M_bind, mret, M_ret.
      cbn. rewrite Hcreate. cbn. rewrite <- app_assoc. eexists. reflexivity.
  - exists []. rewrite app_nil_r.
    unfold actions.REST_FETCH_BLOCKS, getter, lift. cbn [filter_cb].
    unfold knownBlocks_find, mbind, M_bind, completion_bind.
    destruct (knownBlocks (store w) !! "find"); destruct w; reflexivity.
Qed.

(** X15.  [REST_FETCH_BLOCKS] writes nothing to the store, on any list of
    heights and whatever the node does: no block reaches [knownBlocks].
    It returns [false] on one occasion only, when no height is asked for
    and [RESTService.create] throws; with no height asked for it returns
    the empty list otherwise, and with any height asked for it throws. *)
Theorem REST_FETCH_BLOCKS_outcome (blockHeights : list Z) w :
  store (snd (actions.REST_FETCH_BLOCKS T blockHeights w)) = store w
  /\ (fst (actions.REST_FETCH_BLOCKS T blockHeights w) = JS.Normal ReturnFalse
      <-> blockHeights = []
          /\ completes (create T "BlockHttp" (url (currentPeer (store w)))) = false)
  /\ (fst (actions.REST_FETCH_BLOCKS T blockHeights w) = JS.Normal (ReturnBlocks [])
      <-> blockHeights = []
          /\ completes (create T "BlockHttp" (url (currentPeer (store w)))) = true)
  /\ (blockHeights <> [] ->
      fst (actions.REST_FETCH_BLOCKS T blockHeights w)
      = JS.Throw (JS.TypeError "knownBlocks.find is not a function")).
Proof.
  destruct (REST_FETCH_BLOCKS_cases blockHeights w) as [events ->]. cbn [fst snd store].
  split; [reflexivity|].
  destruct blockHeights as [|height heights].
  - destruct (completes _); repeat split; intros; intuition congruence.
  - repeat split; intros; intuition congruence.
Qed.

(** X16.  [initialize] never throws.  When the node answers all it is
    asked, the store ends initialized and a subscription is opened, once
    and last of all, to the websocket endpoint of the peer just committed;
    when the node fails at any point, no subscription is opened and
    [initialized] is as it was. *)
Theorem initialize_subscribes w :
  exists w' events,
    actions.initialize U T w = (JS.Normal tt, w')
    /\ trace w' = trace w ++ events
    /\ if node_answers T (url (currentPeer (store w)))
       then initialized (store w') = true
            /\ wsEndpoint (store w') = httpToWsUrl U (url (currentPeer (store w')))
            /\ exists before,
                events = before ++ [SubscribeBlocks (wsEndpoint (store w'))]
                /\ no_subscription before = true
       else initialized (store w') = initialized (store w)
            /\ no_subscription events = true.
Proof.
  destruct (initialize_cases U T w) as (w' & events & Hrun & Htrace & Hcases).
  exists w', events. split; [exact Hrun|]. split; [exact Htrace|].
  destruct (node_answers T _).
  - destruct Hcases as (type & info & h & before & -> & _ & _ & -> & Hbefore).
    unfold initialized_state, mutations.networkType. destruct (_ || _); cbn.
    all: split; [reflexivity|]; split; [reflexivity|];
      exists before; split; [reflexivity|exact Hbefore].
  - destruct Hcases as [[->| ->] [Hnone _]]; split; first [reflexivity|exact Hnone].
Qed.

(** X17.  The network type [initialize] stores is always one of the four
    of [NetworkType]: the node's answer when it is one of them, and
    [MIJIN_TEST] when it is any other number. *)
Theorem initialize_networkType w (type : Z) :
  node_answers T (url (currentPeer (store w))) = true ->
  getNetworkType T (url (currentPeer (store w))) = Returns (Fulfilled type) ->
  networkType (store (snd (actions.initialize U T w)))
  = (if recognised type then type else NetworkType.MIJIN_TEST)
  /\ recognised (networkType (store (snd (actions.initialize U T w)))) = true.
Proof.
  intros Hanswers Htype.
  destruct (initialize_cases U T w) as (w' & events & -> & _ & Hcases). cbn [snd].
  rewrite Hanswers in Hcases. destruct Hcases as (type' & info & h & before & -> & Htype' & _).
  rewrite Htype in Htype'. injection Htype' as <-. cbn.
  unfold mutations.networkType. fold (recognised type).
  destruct (recognised type) eqn:Hrecognised; cbn; [split; [reflexivity|exact Hrecognised]|].
  split; reflexivity.
Qed.

End Outcomes.

(** ** Sequences of actions *)

Section Sessions.
Variable U : URLHelpers.
Implicit Types (w : World) (state : State) (T : RESTService).

Lemma UNSUBSCRIBE_run w :
  actions.UNSUBSCRIBE w
  = (JS.Normal tt,
     {| store := mutations.setSubscriptions [] (store w);
        trace := trace w ++ teardown (subscriptions (store w)) |}).
Proof.
  unfold actions.UNSUBSCRIBE, actions.RESET_SUBSCRIPTIONS.
  unfold mbind, M_bind, getter. cbv beta. rewrite for_each_teardown.
  unfold commit. reflexivity.
Qed.

(** [SET_CURRENT_PEER] on a url that is accepted: [initialize], run on
    the store switched to the new peer and uninitialized. *)
Lemma SET_CURRENT_PEER_eq T (currentPeerUrl : string) w :
  isValidURL U currentPeerUrl = true ->
  actions.SET_CURRENT_PEER U T currentPeerUrl w
  = actions.initialize U T
      {| store := uninitialized (switched U currentPeerUrl (store w));
         trace := trace w ++ teardown (subscriptions (store w)) |}.
Proof.
  intros Hvalid. unfold actions.SET_CURRENT_PEER. rewrite Hvalid. cbn [negb].
  unfold mbind, M_bind, commit. cbv beta. rewrite uninitialize_run. reflexivity.
Qed.

Lemma dispatch_stable (P : State -> Prop) T (a : session.action) w :
  stable U P -> P (store w) -> P (store (session.dispatch U T a w)).
Proof.
  intros HP Hw. destruct a as [| |url|url|p| |block| |h|hs]; cbn [session.dispatch].
  - destruct (initialize_cases U T w) as (w' & events & -> & _ & Hcases). cbn [snd].
    destruct (node_answers T _).
    + destruct Hcases as (type & info & h & before & -> & _).
      apply (stable_initialized U P HP), Hw.
    + destruct Hcases as [[->| ->] _]; [exact Hw|apply (stable_connected U P HP), Hw].
  - rewrite uninitialize_run. apply (stable_uninitialized U P HP), Hw.
  - destruct (isValidURL U url) eqn:Hvalid.
    + rewrite (SET_CURRENT_PEER_eq T url w Hvalid).
      match goal with |- context [actions.initialize U T ?w1] =>
        assert (P (store w1)) as Hw1
          by (apply (stable_uninitialized U P HP), (stable_switched U P HP), Hw);
        destruct (initialize_cases U T w1) as (w' & events & -> & _ & Hcases)
      end.
      cbn [snd]. destruct (node_answers T _).
      * destruct Hcases as (type & info & h & before & -> & _).
        apply (stable_initialized U P HP), Hw1.
      * destruct Hcases as [[->| ->] _]; [exact Hw1|apply (stable_connected U P HP), Hw1].
    + unfold actions.SET_CURRENT_PEER. rewrite Hvalid. exact Hw.
  - rewrite ADD_KNOWN_PEER_run_eq. destruct (isValidURL U url); [|exact Hw].
    apply (stable_addPeer U P HP _ url), Hw.
  - unfold actions.REMOVE_KNOWN_PEER, commit_partial.
    destruct (mutations.removePeer p (store w)) as [state'|e] eqn:Hremove; [|exact Hw].
    exact (stable_removePeer U P HP _ _ _ Hw Hremove).
  - apply (stable_setSubscriptions U P HP), Hw.
  - apply (stable_addBlock U P HP), Hw.
  - rewrite UNSUBSCRIBE_run. apply (stable_setSubscriptions U P HP), Hw.
  - apply (stable_currentHeight U P HP), Hw.
  - destruct (REST_FETCH_BLOCKS_cases T hs w) as [events ->]. exact Hw.
Qed.

Lemma run_stable (P : State -> Prop) (history : list (RESTService * session.action)) :
  stable U P -> forall w, P (store w) -> P (store (session.run U history w)).
Proof.
  intros HP. induction history as [|[T a] history IH]; intros w Hw; [exact Hw|].
  cbn. apply IH, dispatch_stable; assumption.
Qed.

Lemma removePeer_Normal (peerUrl : payload) state state' :
  mutations.removePeer peerUrl state = JS.Normal state' ->
  exists idx, state' = set_knownPeers (JS.delete_index idx (knownPeers state)) state.
Proof.
  unfold mutations.removePeer. destruct (findIndex _ _) as [idx|e]; cbn; [|discriminate].
  intros [= <-]. exists idx. reflexivity.
Qed.


(** X18.  In every store that the actions reach from a store where it
    holds, initialized implies connected: whatever is dispatched, in
    whatever order and on whatever answers of the node, [initialized] is
    never [true] while [isConnected] is [false]. *)
Theorem initialized_is_connected (history : list (RESTService * session.action)) w :
  (initialized (store w) = true -> isConnected (store w) = true) ->
  initialized (store (session.run U history w)) = true ->
  isConnected (store (session.run U history w)) = true.
Proof.
  apply (run_stable (fun state => initialized state = true -> isConnected state = true)).
  constructor; try (intros; cbn in *; auto; discriminate).
  - intros state type info h _ _. cbn. unfold mutations.networkType.
    destruct (_ || _); reflexivity.
  - intros state peerUrl state' Hstate Hremove.
    destruct (removePeer_Normal _ _ _ Hremove) as [idx ->]. exact Hstate.
Qed.




End Sessions.

Section SwitchToSilentNode.
Variable U : URLHelpers.
Variable T : RESTService.
Implicit Types (w : World).

(** X22.  Switching to a peer whose node does not answer all that
    [initialize] asks: for a url that [URLHelpers.isValidURL] accepts,
    [SET_CURRENT_PEER] returns normally all the same, with the peer
    switched, its websocket endpoint derived from it, the subscriptions of
    before torn down and forgotten, no subscription opened, and the store
    not initialized; it is not connected either when the network type
    itself could not be read. *)
Theorem SET_CURRENT_PEER_silent_node (currentPeerUrl : string) w :
  isValidURL U currentPeerUrl = true ->
  node_answers T (url (formatUrl U currentPeerUrl)) = false ->
  exists w' events,
    actions.SET_CURRENT_PEER U T currentPeerUrl w = (JS.Normal tt, w')
    /\ trace w' = trace w ++ teardown (subscriptions (store w)) ++ events
    /\ no_subscription events = true
    /\ initialized (store w') = false
    /\ subscriptions (store w') = []
    /\ (currentPeer (store w') = formatUrl U currentPeerUrl
        \/ currentPeer (store w') = formatUrl U (url (formatUrl U currentPeerUrl)))
    /\ ws_derived U (store w')
    /\ (call_failed (getNetworkType T (url (formatUrl U currentPeerUrl))) = true ->
        isConnected (store w') = false
        /\ currentPeer (store w') = formatUrl U currentPeerUrl).
Proof.
  intros Hvalid Hsilent. rewrite (SET_CURRENT_PEER_eq U T currentPeerUrl w Hvalid).
  match goal with |- context [actions.initialize U T ?w1] =>
    destruct (initialize_cases U T w1) as (w' & events & -> & Htrace & Hcases)
  end.
  cbn [store trace] in Htrace, Hcases. cbn in Hcases. rewrite Hsilent in Hcases.
  destruct Hcases as (Hstore & Hnone & Hdown).
  exists w', events. split; [reflexivity|].
  split; [rewrite Htrace, <- app_assoc; reflexivity|]. split; [exact Hnone|].
  unfold ws_derived.
  destruct Hstore as [Hstore|Hstore]; rewrite Hstore; cbn.
  - split; [reflexivity|]. split; [reflexivity|]. split; [left; reflexivity|].
    split; [reflexivity|]. intros _. split; reflexivity.
  - split; [reflexivity|]. split; [reflexivity|]. split; [right; reflexivity|].
    split; [reflexivity|]. intros Hfailed. rewrite (Hdown Hfailed) in Hstore.
    apply (f_equal isConnected) in Hstore. cbn in Hstore. discriminate Hstore.
Qed.

End SwitchToSilentNode.

Lemma SET_CURRENT_PEER_silent_node_witness :
  isValidURL sample.helpers "http://other:3000" = true
  /\ node_answers sample.node_down "http://other:3000" = false
  /\ exists w',
      actions.SET_CURRENT_PEER sample.helpers sample.node_down "http://other:3000" sample.world
      = (JS.Normal tt, w')
      /\ initialized (store w') = false
      /\ isConnected (store w') = false
      /\ currentPeer (store w') = {| url := "http://other:3000" |}.
Proof.
  split; [reflexivity|]. split; [reflexivity|].
  destruct (SET_CURRENT_PEER_silent_node sample.helpers sample.node_down "http://other:3000"
              sample.world eq_refl eq_refl)
    as (w' & events & Hrun & _ & _ & Hinitialized & _ & _ & _ & Hdown).
  exists w'. split; [exact Hrun|]. split; [exact Hinitialized|]. apply Hdown. reflexivity.
Defined.

(** A node that answers with a network type the SDK does not know. *)
Lemma initialize_networkType_witness :
  node_answers
    {| create := fun _ _ => JS.Normal tt;
       getNetworkType := fun _ => Returns (Fulfilled 7);
       getNodeInfo := fun _ => Returns (Fulfilled "node-info");
       getBlockchainHeight := fun _ => Returns (Fulfilled 1234);
       getBlocksByHeightWithLimit := fun _ _ _ => Returns (Fulfilled []) |}
    sample.node = true
  /\ networkType
       (store (snd (actions.initialize sample.helpers
                      {| create := fun _ _ => JS.Normal tt;
                         getNetworkType := fun _ => Returns (Fulfilled 7);
                         getNodeInfo := fun _ => Returns (Fulfilled "node-info");
                         getBlockchainHeight := fun _ => Returns (Fulfilled 1234);
                         getBlocksByHeightWithLimit := fun _ _ _ => Returns (Fulfilled []) |}
                      sample.world)))
     = NetworkType.MIJIN_TEST.
Proof.
  split; [reflexivity|].
  apply (initialize_networkType sample.helpers _ sample.world 7); reflexivity.
Defined.

Lemma initialized_is_connected_witness :
  (initialized (store sample.world) = true -> isConnected (store sample.world) = true)
  /\ initialized
       (store (session.run sample.helpers
                 [(sample.node_info_down, session.initialize);
                  (sample.node_up, session.SET_CURRENT_PEER "http://other:3000")]
                 sample.world)) = true
  /\ isConnected
       (store (session.run sample.helpers
                 [(sample.node_info_down, session.initialize);
                  (sample.node_up, session.SET_CURRENT_PEER "http://other:3000")]
                 sample.world)) = true.
Proof.
  split; [intros H; discriminate H|]. split; [reflexivity|].
  apply (initialized_is_connected sample.helpers
           [(sample.node_info_down, session.initialize);
            (sample.node_up, session.SET_CURRENT_PEER "http://other:3000")]
           sample.world); [intros H; discriminate H|reflexivity].
Defined.


